(** * ci-doctor: the analysis pipeline, embedded and verified

    A shallow embedding of [ci_doctor/utils.py] and [ci_doctor/analysis.py]:
    run-URL parsing, the median of the baseline sample, the log-excerpt
    extractor, the scan of historical successes, the suspect rules and the
    cancellation-reason heuristics.

    Conventions of the embedding.
    - A Python [int] is a [Z]; [//] is [Z.div] (both floor) and [%] is
      [Z.modulo].
    - A Python [str] is a [string] holding its UTF-8 encoding; [bytes] is a
      list of [byte].  Case-insensitive operations ([str.lower],
      [re.IGNORECASE]) fold the ASCII letters, and [\d] is an ASCII digit.
    - [Optional[T]] is [option T]; a dictionary with string keys is a
      [gmap string _]; the set [result_indices] is a [gset Z].
    - Code that can raise returns a [result]; [try ... except Exception]
      is [catch]. *)

From Stdlib Require Import ZArith Ascii String.
From Stdlib.Strings Require Import Byte.
From stdpp Require Import prelude strings gmap sorting pretty.

Local Open Scope Z_scope.

(** ** Exceptions *)

Inductive exn : Type :=
  | ValueError
  | IndexError
  | BadZipFile
  | KeyError
  | OSError.

Inductive result (A : Type) : Type :=
  | Ok (a : A)
  | Raise (e : exn).
Arguments Ok {A} a.
Arguments Raise {A} e.

#[global] Instance result_ret : MRet result := fun _ a => Ok a.
#[global] Instance result_bind : MBind result := fun _ _ k m =>
  match m with
  | Ok a => k a
  | Raise e => Raise e
  end.

#[global] Instance result_fmap : FMap result := fun _ _ f m =>
  match m with
  | Ok a => Ok (f a)
  | Raise e => Raise e
  end.

(** [try: body except Exception: handler] *)
Definition catch {A : Type} (body : result A) (handler : exn -> A) : A :=
  match body with
  | Ok a => a
  | Raise e => handler e
  end.

(** ** Python sequences *)

(** [l[i]] for a Python integer [i]: a negative index counts from the end,
    an index out of range raises. *)
Definition getitem {A : Type} (l : list A) (i : Z) : result A :=
  let n := Z.of_nat (length l) in
  let j := if i <? 0 then n + i else i in
  if (0 <=? j) && (j <? n) then
    match l !! Z.to_nat j with
    | Some x => Ok x
    | None => Raise IndexError
    end
  else Raise IndexError.

(** [l[start:]] *)
Definition slice_from {A : Type} (l : list A) (start : Z) : list A :=
  let n := Z.of_nat (length l) in
  let s := if start <? 0 then Z.max 0 (n + start) else Z.min start n in
  drop (Z.to_nat s) l.

(** [range(start, stop)] *)
Definition range (start stop : Z) : list Z := seqZ start (stop - start).

(** [len(l)] *)
Definition len {A : Type} (l : list A) : Z := Z.of_nat (length l).

(** ** Python strings *)

Definition is_upper (c : ascii) : bool :=
  let n := N_of_ascii c in (65 <=? n)%N && (n <=? 90)%N.

Definition is_digit (c : ascii) : bool :=
  let n := N_of_ascii c in (48 <=? n)%N && (n <=? 57)%N.

Definition lower_char (c : ascii) : ascii :=
  if is_upper c then ascii_of_N (N_of_ascii c + 32) else c.

(** [s.lower()] *)
Fixpoint lower (s : string) : string :=
  match s with
  | EmptyString => EmptyString
  | String c s' => String (lower_char c) (lower s')
  end.

(** [s.startswith(p)] *)
Fixpoint startswith (s p : string) : bool :=
  match p with
  | EmptyString => true
  | String a p' =>
      match s with
      | EmptyString => false
      | String b s' => Ascii.eqb a b && startswith s' p'
      end
  end.

(** [sub in s] *)
Fixpoint contains (s sub : string) : bool :=
  startswith s sub ||
  match s with
  | EmptyString => false
  | String _ s' => contains s' sub
  end.

(** [s.endswith(suf)] *)
Fixpoint endswith (s suf : string) : bool :=
  String.eqb s suf ||
  match s with
  | EmptyString => false
  | String _ s' => endswith s' suf
  end.

(** [s.split(sep)] for a one-character separator. *)
Fixpoint split (sep : ascii) (s : string) : list string :=
  match s with
  | EmptyString => [EmptyString]
  | String c s' =>
      if Ascii.eqb c sep then EmptyString :: split sep s'
      else match split sep s' with
           | h :: t => String c h :: t
           | [] => [String c EmptyString]
           end
  end.

(** [s.replace(a, b)] for one-character [a] and [b]. *)
Fixpoint replace_char (a b : ascii) (s : string) : string :=
  match s with
  | EmptyString => EmptyString
  | String c s' => String (if Ascii.eqb c a then b else c) (replace_char a b s')
  end.

(** [sep.join(l)] *)
Fixpoint join (sep : string) (l : list string) : string :=
  match l with
  | [] => EmptyString
  | [x] => x
  | x :: l' => x +:+ sep +:+ join sep l'
  end.

(** Truthiness of the values the code tests with [if x:] / [not x]. *)
Definition truthy_str (s : string) : bool := negb (String.eqb s EmptyString).
Definition truthy_opt_str (o : option string) : bool :=
  match o with Some s => truthy_str s | None => false end.
Definition truthy_opt_int (o : option Z) : bool :=
  match o with Some n => negb (n =? 0) | None => false end.

(** An instance of a dataclass is true; [None] is not. *)
Definition truthy_opt {A : Type} (o : option A) : bool :=
  match o with Some _ => true | None => false end.

(** [x or ""] *)
Definition or_empty (o : option string) : string := default EmptyString o.

(** [x in {a, b, ...}] for strings. *)
Definition str_in (x : string) (l : list string) : bool :=
  existsb (String.eqb x) l.

(** ** [median_ms] (utils.py) *)

(** [sorted(values)]: the ascending arrangement of the integers. *)
Definition sorted (values : list Z) : list Z := merge_sort Z.le values.

Definition median_ms (values : list Z) : Z :=
  match values with
  | [] => 0
  | _ =>
      let xs := sorted values in
      let n := len xs in
      if n mod 2 =? 1 then xs !!! Z.to_nat (n / 2)
      else (xs !!! Z.to_nat (n / 2 - 1) + xs !!! Z.to_nat (n / 2)) / 2
  end.

(** ** The data model (providers/base.py) *)

(** The instant a timestamp field denotes ([iso_to_dt] of the field), in
    whole seconds since the epoch: the provider's timestamps have the form
    [2024-01-01T00:00:00Z]. *)
Definition datetime : Type := Z.

(** A [Dict[str, Any]] whose values, where the code reads them, are strings. *)
Definition dict : Type := gmap string string.

Module RunMeta.
Record t : Type := mk {
  id : string;
  provider : string;
  repo : string;
  branch : string;
  event : string;
  actor : option string;
  status : string;
  conclusion : option string;
  run_attempt : Z;
  started_at : datetime;
  updated_at : datetime;
  head_sha : option string;
  web_url : string;
  workflow_id : option string
}.
End RunMeta.

Module JobMeta.
Record t : Type := mk {
  id : string;
  name : string;
  conclusion : option string;
  started_at : option string;
  completed_at : option string;
  steps : list dict;
  log_lines : option (list string)
}.

(** [job.log_lines = v] *)
Definition set_log_lines (j : t) (v : option (list string)) : t :=
  mk (id j) (name j) (conclusion j) (started_at j) (completed_at j) (steps j) v.
End JobMeta.

Module CompareMeta.
Record t : Type := mk {
  total_commits : Z;
  files : list dict
}.
End CompareMeta.

(** ** Time (utils.py) *)

(** [int((end - start).total_seconds() * 1000)]: on whole seconds the
    floating-point product is exact. *)
Definition duration_ms (start end_ : datetime) : Z := (end_ - start) * 1000.

(** ** [pick_failing_jobs] and [gen_suspects] (analysis.py) *)

Definition failing_conclusions : list string := ["failure"; "failed"; "cancelled"].

Definition pick_failing_jobs (jobs : list JobMeta.t) : list JobMeta.t :=
  fold_left
    (fun failing j =>
       if str_in (lower (or_empty (JobMeta.conclusion j))) failing_conclusions
       then failing ++ [j] else failing)
    jobs [].

Definition suspect_duration : string :=
  "Duration spike vs median → cache miss, dependency install, or external service slowdown.".
Definition suspect_lockfile : string :=
  "Dependency/lockfile changes may have broken build or invalidated caches.".
Definition suspect_workflow : string :=
  "Workflow changes detected → runner image, permissions, or cache keys altered.".
Definition suspect_dockerfile : string :=
  "Dockerfile changes → base image/layer differences causing failures.".
Definition suspect_dispatch : string :=
  "Manual/dispatch trigger → verify inputs/secrets.".

Definition lock_suffixes : list string :=
  ["package-lock.json"; "yarn.lock"; "pnpm-lock.yaml"; "poetry.lock";
   "requirements.txt"; "Pipfile.lock"; "go.sum"; "Cargo.lock"].

Definition wf_names : list string :=
  [".github/workflows/"; "ci.yml"; "ci.yaml"; ".github/workflows/ci.yaml";
   ".github/workflows/ci.yml"].

(** [dur > baseline_p50_ms * 1.5]: the product by 1.5 is exact in binary
    floating point for a baseline below 2^52, and Python compares an [int]
    with a [float] exactly, so the test is [2 * dur > 3 * baseline]. *)
Definition exceeds_one_and_a_half (dur baseline : Z) : bool :=
  3 * baseline <? 2 * dur.

Definition append_if {A : Type} (c : bool) (l : list A) (x : A) : list A :=
  if c then l ++ [x] else l.

(** [[f.get("filename", "") for f in (cmp.files or [])]] *)
Definition filenames_of (cmp : CompareMeta.t) : list string :=
  (fun f : dict => default EmptyString (f !! "filename")) <$> CompareMeta.files cmp.

(** [any(name.endswith(s) for name in filenames for s in lock_suffixes)] *)
Definition touches_lockfile (filenames : list string) : bool :=
  existsb (fun name => existsb (fun s => endswith name s) lock_suffixes) filenames.

(** [any(any(seg in name for seg in wf_names) for name in filenames)] *)
Definition touches_workflow (filenames : list string) : bool :=
  existsb (fun name => existsb (fun seg => contains name seg) wf_names) filenames.

(** [any(name.lower().endswith(("dockerfile", ".dockerfile")) for name in filenames)] *)
Definition touches_dockerfile (filenames : list string) : bool :=
  existsb (fun name => endswith (lower name) "dockerfile"
                       || endswith (lower name) ".dockerfile") filenames.

(** [run.event in {"workflow_dispatch", "repository_dispatch"}] *)
Definition is_dispatch (run : RunMeta.t) : bool :=
  str_in (RunMeta.event run) ["workflow_dispatch"; "repository_dispatch"].

Definition gen_suspects (run : RunMeta.t) (jobs : list JobMeta.t)
    (cmp : option CompareMeta.t) (baseline_p50_ms : option Z) : list string :=
  let suspects : list string := [] in
  (* Duration spike *)
  let suspects :=
    if truthy_opt_int baseline_p50_ms then
      let dur := duration_ms (RunMeta.started_at run) (RunMeta.updated_at run) in
      append_if (exceeds_one_and_a_half dur (default 0 baseline_p50_ms))
        suspects suspect_duration
    else suspects in
  (* Lockfile / deps *)
  let suspects :=
    match cmp with
    | Some c =>
        let filenames := filenames_of c in
        let suspects := append_if (touches_lockfile filenames) suspects suspect_lockfile in
        let suspects := append_if (touches_workflow filenames) suspects suspect_workflow in
        append_if (touches_dockerfile filenames) suspects suspect_dockerfile
    | None => suspects
    end in
  let suspects := append_if (is_dispatch run) suspects suspect_dispatch in
  take 3 suspects.

(** ** The scan of the historical successes ([analyze], step 2) *)

(** One turn of [for r in successes]. *)
Definition scan_step (cur_start : datetime)
    (st : option RunMeta.t * list Z) (r : RunMeta.t) : option RunMeta.t * list Z :=
  let '(last_success, durations) := st in
  let durations :=
    durations ++ [duration_ms (RunMeta.started_at r) (RunMeta.updated_at r)] in
  let last_success :=
    if (RunMeta.started_at r <? cur_start) && negb (truthy_opt last_success)
    then Some r else last_success in
  (last_success, durations).

Definition scan_successes (run : RunMeta.t) (successes : list RunMeta.t)
    : option RunMeta.t * list Z :=
  fold_left (scan_step (RunMeta.started_at run)) successes (None, []).

(** [median_ms(durations) if durations else None] *)
Definition baseline_of (durations : list Z) : option Z :=
  match durations with
  | [] => None
  | _ => Some (median_ms durations)
  end.

(** ** The cancellation heuristics ([analyze], step 4) *)

Definition reason_cascade : string := "Cancelled after a failure in another job".
Definition reason_timeout : string := "Timeout reached".
Definition reason_operation : string :=
  "Operation canceled (manual, concurrency, or timeout)".

(** The turn of [for j in failing_jobs] that gathers the log text. *)
Definition gather_snippets (failing_jobs : list JobMeta.t) : list string :=
  fold_left
    (fun text_snippets j =>
       match JobMeta.log_lines j with
       | Some (x :: l) => text_snippets ++ (x :: l)
       | _ => text_snippets
       end)
    failing_jobs [].

(** The block under [if (run.conclusion or "").lower() == "cancelled":]. *)
Definition infer_cancellation (jobs failing_jobs : list JobMeta.t) : option string :=
  let any_failure :=
    existsb (fun j => str_in (lower (or_empty (JobMeta.conclusion j))) ["failure"; "failed"])
      jobs in
  let any_cancel :=
    existsb (fun j => String.eqb (lower (or_empty (JobMeta.conclusion j))) "cancelled") jobs in
  if any_failure && any_cancel then Some reason_cascade
  else
    let joined := lower (join (String "010" EmptyString) (gather_snippets failing_jobs)) in
    if contains joined "timeout" || contains joined "timed out" then Some reason_timeout
    else if contains joined "the operation was canceled"
            || contains joined "the operation was cancelled"
    then Some reason_operation
    else None.

Definition cancellation_reason_of (run : RunMeta.t) (jobs failing_jobs : list JobMeta.t)
    : option string :=
  if String.eqb (lower (or_empty (RunMeta.conclusion run))) "cancelled"
  then infer_cancellation jobs failing_jobs
  else None.

(** ** [urllib.parse.urlparse] *)

Module ParseResult.
Record t : Type := mk {
  scheme : string;
  netloc : string;
  path : string;
  params : string;
  query : string;
  fragment : string
}.
End ParseResult.

(** [(s[:i], s[i:])] for the first index [i] whose character satisfies [p],
    and [(s, "")] when there is none. *)
Fixpoint break_at (p : ascii -> bool) (s : string) : string * string :=
  match s with
  | EmptyString => (EmptyString, EmptyString)
  | String c s' =>
      if p c then (EmptyString, s)
      else let '(a, b) := break_at p s' in (String c a, b)
  end.

Definition tail_str (s : string) : string :=
  match s with
  | EmptyString => EmptyString
  | String _ s' => s'
  end.

Fixpoint forallb_str (p : ascii -> bool) (s : string) : bool :=
  match s with
  | EmptyString => true
  | String c s' => p c && forallb_str p s'
  end.

Fixpoint filter_str (p : ascii -> bool) (s : string) : string :=
  match s with
  | EmptyString => EmptyString
  | String c s' => if p c then String c (filter_str p s') else filter_str p s'
  end.

Fixpoint lstrip (p : ascii -> bool) (s : string) : string :=
  match s with
  | EmptyString => EmptyString
  | String c s' => if p c then lstrip p s' else s
  end.

Fixpoint rstrip (p : ascii -> bool) (s : string) : string :=
  match s with
  | EmptyString => EmptyString
  | String c s' =>
      match rstrip p s' with
      | EmptyString => if p c then EmptyString else String c EmptyString
      | r => String c r
      end
  end.

Definition is_lower (c : ascii) : bool :=
  let n := N_of_ascii c in (97 <=? n)%N && (n <=? 122)%N.
Definition is_alpha (c : ascii) : bool := is_upper c || is_lower c.
Definition is_char (a c : ascii) : bool := Ascii.eqb c a.

(** [_WHATWG_C0_CONTROL_OR_SPACE] *)
Definition is_c0_or_space (c : ascii) : bool := (N_of_ascii c <=? 32)%N.
(** [_UNSAFE_URL_BYTES_TO_REMOVE] *)
Definition is_unsafe_url_byte (c : ascii) : bool :=
  is_char "009" c || is_char "013" c || is_char "010" c.
(** [scheme_chars] *)
Definition is_scheme_char (c : ascii) : bool :=
  is_alpha c || is_digit c || is_char "+" c || is_char "-" c || is_char "." c.

Definition uses_params : list string :=
  [""; "ftp"; "hdl"; "prospero"; "http"; "imap"; "https"; "shttp"; "rtsp";
   "rtsps"; "rtspu"; "sip"; "sips"; "mms"; "sftp"; "tel"].

(** [_splitparams]: the parameters are cut from the last path segment. *)
Fixpoint splitparams (url : string) : string * string :=
  match url with
  | EmptyString => (EmptyString, EmptyString)
  | String c s' =>
      if contains s' "/" then
        let '(a, b) := splitparams s' in (String c a, b)
      else
        let '(a, b) := break_at (is_char ";") url in (a, tail_str b)
  end.

(** [urlparse(url)] (CPython 3.12).  Left out: the validation of a bracketed
    host and the normalisation check of a non-ASCII network location.  They
    can only raise [ValueError], and only for a network location that holds
    a bracket or a non-ASCII character, which [parse_github_run_url] refuses
    with the same exception. *)
Definition urlparse (url : string) : result ParseResult.t :=
  let url := lstrip is_c0_or_space url in
  let url := filter_str (fun c => negb (is_unsafe_url_byte c)) url in
  let '(scheme, url) :=
    let '(pre, rest) := break_at (is_char ":") url in
    match pre, rest with
    | String c0 _, String _ after =>
        if is_alpha c0 && forallb_str is_scheme_char pre
        then (lower pre, after) else (EmptyString, url)
    | _, _ => (EmptyString, url)
    end in
  '(netloc, url) ←
    (if startswith url "//" then
       let '(netloc, rest) :=
         break_at (fun c => is_char "/" c || is_char "?" c || is_char "#" c)
           (tail_str (tail_str url)) in
       if bool_decide (contains netloc "[" ≠ contains netloc "]")
       then Raise ValueError
       else Ok (netloc, rest)
     else Ok (EmptyString, url));
  let '(url, fragment) :=
    let '(a, b) := break_at (is_char "#") url in (a, tail_str b) in
  let '(url, query) :=
    let '(a, b) := break_at (is_char "?") url in (a, tail_str b) in
  let '(url, params) :=
    if str_in scheme uses_params && contains url ";"
    then splitparams url else (url, EmptyString) in
  Ok (ParseResult.mk scheme netloc url params query fragment).

(** ** [int(s)] *)

(** [str.isspace] on the ASCII range. *)
Definition is_space (c : ascii) : bool :=
  let n := N_of_ascii c in
  ((9 <=? n)%N && (n <=? 13)%N) || ((28 <=? n)%N && (n <=? 32)%N).

Definition digit_value (c : ascii) : Z := Z.of_N (N_of_ascii c) - 48.

(** The digits of a literal: groups of digits joined by single underscores. *)
Fixpoint digits_value (acc : Z) (after_digit : bool) (s : string) : option Z :=
  match s with
  | EmptyString => if after_digit then Some acc else None
  | String c s' =>
      if is_digit c then digits_value (10 * acc + digit_value c) true s'
      else if is_char "_" c && after_digit then digits_value acc false s'
      else None
  end.

(** [int(s)] in base ten.  The interpreter's configurable cap on the number
    of digits it converts is not part of the model. *)
Definition py_int (s : string) : result Z :=
  let s := rstrip is_space (lstrip is_space s) in
  let '(sign, body) :=
    match s with
    | String c s' =>
        if is_char "-" c then (-1, s')
        else if is_char "+" c then (1, s')
        else (1, s)
    | EmptyString => (1, s)
    end in
  match digits_value 0 false body with
  | Some n => Ok (sign * n)
  | None => Raise ValueError
  end.

(** ** [parse_github_run_url] (utils.py) *)

Module ParsedRunURL.
Record t : Type := mk {
  owner : string;
  repo : string;
  run_id : Z
}.
End ParsedRunURL.

(** [[p for p in path.split("/") if p]] *)
Definition path_parts (path : string) : list string :=
  List.filter truthy_str (split "/" path).

Definition accepted_netlocs : list string := ["github.com"; "www.github.com"].

Definition parse_github_run_url (url : string) : result ParsedRunURL.t :=
  u ← urlparse url;
  if negb (str_in (ParseResult.netloc u) accepted_netlocs) then Raise ValueError
  else
    let parts := path_parts (ParseResult.path u) in
    if (len parts <? 5)
       || negb (String.eqb (parts !!! 2%nat) "actions")
       || negb (String.eqb (parts !!! 3%nat) "runs")
    then Raise ValueError
    else
      match take 5 parts with
      | [owner; repo; _; _; run_id] =>
          n ← py_int run_id;
          Ok (ParsedRunURL.mk owner repo n)
      | _ => Raise ValueError
      end.

(** ** [bytes.decode('utf-8', errors='replace')] and [str.splitlines] *)

Definition bytes : Type := list byte.

Definition chr (b : byte) : ascii := ascii_of_byte b.

(** U+FFFD REPLACEMENT CHARACTER, in UTF-8. *)
Definition replacement : string :=
  String "239" (String "191" (String "189" EmptyString)).

Definition is_continuation (b : byte) : bool :=
  let n := Byte.to_N b in (128 <=? n)%N && (n <=? 191)%N.

(** The second byte of a three- or four-byte sequence is refused when it is
    no continuation byte, or encodes an overlong form, a surrogate or a code
    point past U+10FFFF. *)
Definition bad_second (lead low_lead high_lead bound : N) (b : byte) : bool :=
  negb (is_continuation b)
  || (if (Byte.to_N b <? bound)%N then (lead =? low_lead)%N else (lead =? high_lead)%N).

(** The decoder replaces every maximal ill-formed run by U+FFFD and goes on
    after it; a sequence cut short by the end of the input is one such run. *)
Fixpoint decode_utf8_replace (bs : bytes) : string :=
  match bs with
  | [] => EmptyString
  | b0 :: r =>
      let n := Byte.to_N b0 in
      if (n <? 128)%N then String (chr b0) (decode_utf8_replace r)
      else if (n <? 194)%N then replacement +:+ decode_utf8_replace r
      else if (n <? 224)%N then
        match r with
        | [] => replacement
        | b1 :: r1 =>
            if is_continuation b1
            then String (chr b0) (String (chr b1) (decode_utf8_replace r1))
            else replacement +:+ decode_utf8_replace r
        end
      else if (n <? 240)%N then
        match r with
        | [] => replacement
        | b1 :: r1 =>
            if bad_second n 224 237 160 b1 then replacement +:+ decode_utf8_replace r
            else
              match r1 with
              | [] => replacement
              | b2 :: r2 =>
                  if is_continuation b2
                  then String (chr b0) (String (chr b1) (String (chr b2)
                         (decode_utf8_replace r2)))
                  else replacement +:+ decode_utf8_replace r1
              end
        end
      else if (n <? 245)%N then
        match r with
        | [] => replacement
        | b1 :: r1 =>
            if bad_second n 240 244 144 b1 then replacement +:+ decode_utf8_replace r
            else
              match r1 with
              | [] => replacement
              | b2 :: r2 =>
                  if negb (is_continuation b2) then replacement +:+ decode_utf8_replace r1
                  else
                    match r2 with
                    | [] => replacement
                    | b3 :: r3 =>
                        if is_continuation b3
                        then String (chr b0) (String (chr b1) (String (chr b2)
                               (String (chr b3) (decode_utf8_replace r3))))
                        else replacement +:+ decode_utf8_replace r2
                    end
              end
        end
      else replacement +:+ decode_utf8_replace r
  end.

(** The one-byte line boundaries other than [\r]: [\n], [\v], [\f] and the
    separators [\x1c], [\x1d], [\x1e]. *)
Definition is_line_break (c : ascii) : bool :=
  let n := N_of_ascii c in
  (n =? 10)%N || (n =? 11)%N || (n =? 12)%N || (n =? 28)%N || (n =? 29)%N || (n =? 30)%N.

Definition snoc_str (s : string) (c : ascii) : string := s +:+ String c EmptyString.

(** [str.splitlines] with [cur] the line read so far: the boundaries are
    those above, [\r], [\r\n], U+0085 (C2 85), U+2028 and U+2029
    (E2 80 A8, E2 80 A9). *)
Fixpoint splitlines_from (cur s : string) : list string :=
  match s with
  | EmptyString => if truthy_str cur then [cur] else []
  | String c s' =>
      if is_char "013" c then
        match s' with
        | String c1 s'' =>
            if is_char "010" c1 then cur :: splitlines_from EmptyString s''
            else cur :: splitlines_from EmptyString s'
        | EmptyString => cur :: splitlines_from EmptyString s'
        end
      else if is_line_break c then cur :: splitlines_from EmptyString s'
      else if is_char "194" c then
        match s' with
        | String c1 s'' =>
            if is_char "133" c1 then cur :: splitlines_from EmptyString s''
            else splitlines_from (snoc_str cur c) s'
        | EmptyString => splitlines_from (snoc_str cur c) s'
        end
      else if is_char "226" c then
        match s' with
        | String c1 (String c2 s''') =>
            if is_char "128" c1 && (is_char "168" c2 || is_char "169" c2)
            then cur :: splitlines_from EmptyString s'''
            else splitlines_from (snoc_str cur c) s'
        | _ => splitlines_from (snoc_str cur c) s'
        end
      else splitlines_from (snoc_str cur c) s'
  end.

Definition splitlines (s : string) : list string := splitlines_from EmptyString s.

(** ** The regular expressions of the extractor *)

(** The text after a match of [\d+_] at the start of [s]. *)
Fixpoint after_digits (s : string) : string :=
  match s with
  | String c s' => if is_digit c then after_digits s' else s
  | EmptyString => EmptyString
  end.

Definition match_digits_underscore (s : string) : option string :=
  match s with
  | String c s' =>
      if is_digit c then
        match after_digits s' with
        | String u rest => if is_char "_" u then Some rest else None
        | EmptyString => None
        end
      else None
  | EmptyString => None
  end.

(** The text after a match of the escaped literal [lit], letters compared
    without case. *)
Fixpoint match_literal (lit s : string) : option string :=
  match lit with
  | EmptyString => Some s
  | String a lit' =>
      match s with
      | String b s' =>
          if Ascii.eqb (lower_char a) (lower_char b) then match_literal lit' s' else None
      | EmptyString => None
      end
  end.

(** [.txt$]: any character but a newline (the dot is not escaped in the
    source), then [txt], then the end of the text or a newline that ends
    it. *)
Definition match_dot_txt_end (s : string) : bool :=
  match s with
  | String d rest =>
      negb (is_char "010" d) &&
      match match_literal "txt" rest with
      | Some e => String.eqb e EmptyString || String.eqb e (String "010" EmptyString)
      | None => false
      end
  | EmptyString => false
  end.

(** [re.compile(rf'^\d+_{re.escape(n)}.txt$', re.IGNORECASE).match(s)] *)
Definition name_pattern_match (n s : string) : bool :=
  match match_digits_underscore s with
  | Some r =>
      match match_literal n r with
      | Some r' => match_dot_txt_end r'
      | None => false
      end
  | None => false
  end.

(** [re.compile(rf'^\d+_{re.escape(n)}', re.IGNORECASE).match(s)] *)
Definition prefix_pattern_match (n s : string) : bool :=
  match match_digits_underscore s with
  | Some r => bool_decide (is_Some (match_literal n r))
  | None => false
  end.

(** [re.search(pattern, line, re.IGNORECASE)] for a pattern without
    metacharacters. *)
Definition re_search_ignorecase (pattern line : string) : bool :=
  contains (lower line) (lower pattern).

Definition error_patterns : list string :=
  ["error:"; "Error:"; "ERROR:"; "failed:"; "Failed:"; "FAILED:";
   "fatal:"; "Fatal:"; "FATAL:"; "assertion failed"; "AssertionError";
   "Exception:"; "Traceback"; "exit code"; "exit status"; "Command failed"].

Definition is_error_line (line : string) : bool :=
  existsb (fun pattern => re_search_ignorecase pattern line) error_patterns.

(** ** [extract_failing_step_logs] (utils.py) *)

(** An open [zipfile.ZipFile]: the names of its entries in archive order,
    and [read], which raises for an entry it cannot decompress or check. *)
Module ZipFile.
Record t : Type := mk {
  namelist : list string;
  read : string -> result bytes
}.
End ZipFile.

(** The downloaded archive as [zipfile.ZipFile(io.BytesIO(logs_zip), 'r')]
    reads it: the open archive, or the exception raised for a blob that is
    not a well-formed ZIP file. *)
Definition blob : Type := result ZipFile.t.

(** [for name in names: if test(name): log_file = name; break] *)
Definition first_match (test : string -> bool) (names : list string)
    (log_file : option string) : option string :=
  match List.find test names with
  | Some name => Some name
  | None => log_file
  end.

(** [name.split('/')[-1] if '/' in name else name] *)
Definition basename (name : string) : string :=
  if contains name "/" then default EmptyString (last (split "/" name)) else name.

(** The test of the first loop: the flat layout, then the nested one. *)
Definition step_exact_test (failing_step_name name : string) : bool :=
  (negb (contains name "/") && name_pattern_match failing_step_name name)
  || (let parts := split "/" name in
      (len parts =? 2) && name_pattern_match failing_step_name (parts !!! 1%nat)).

Definition step_partial_test (failing_step_name name : string) : bool :=
  contains (lower name) (lower failing_step_name) && endswith name ".txt".

Definition job_exact_test (failing_job_name name : string) : bool :=
  name_pattern_match failing_job_name (basename name).

Definition job_partial_test (failing_job_name name : string) : bool :=
  prefix_pattern_match (replace_char " " "_" failing_job_name) (basename name)
  && endswith name ".txt"
  && negb (contains (lower name) "system").

Definition locate_log_file (names : list string) (failing_job_name : string)
    (failing_step_name : option string) : option string :=
  let log_file : option string := None in
  let log_file :=
    match failing_step_name with
    | Some step =>
        if truthy_str step then
          let log_file := first_match (step_exact_test step) names log_file in
          if negb (truthy_opt_str log_file)
          then first_match (step_partial_test step) names log_file
          else log_file
        else log_file
    | None => log_file
    end in
  if negb (truthy_opt_str log_file) && truthy_str failing_job_name then
    let log_file := first_match (job_exact_test failing_job_name) names log_file in
    if negb (truthy_opt_str log_file)
    then first_match (job_partial_test failing_job_name) names log_file
    else log_file
  else log_file.

(** [enumerate(l)] *)
Definition enumerate {A : Type} (l : list A) : list (Z * A) :=
  zip (seqZ 0 (len l)) l.

Definition find_error_indices (lines : list string) : list Z :=
  fold_left
    (fun error_indices '(i, line) =>
       if is_error_line line then error_indices ++ [i] else error_indices)
    (enumerate lines) [].

(** A monadic left fold: a [for] loop whose body can raise. *)
Fixpoint for_each {A S : Type} (body : S -> A -> result S) (l : list A) (s : S)
    : result S :=
  match l with
  | [] => Ok s
  | x :: l' => s' ← body s x; for_each body l' s'
  end.

(** The state of the collecting loops: [result_lines] and [result_indices]. *)
Definition collected : Type := list (Z * string) * gset Z.

(** The body of [for idx in range(start, end)]. *)
Definition collect_line (lines : list string) (st : collected) (idx : Z)
    : result collected :=
  let '(result_lines, result_indices) := st in
  if bool_decide (idx ∉ result_indices) then
    line ← getitem lines idx;
    Ok (result_lines ++ [(idx, line)], {[idx]} ∪ result_indices)
  else Ok st.

(** The body of [for err_idx in error_indices]. *)
Definition collect_window (lines : list string) (context_lines : Z)
    (st : collected) (err_idx : Z) : result collected :=
  let start := Z.max 0 (err_idx - context_lines) in
  let end_ := Z.min (len lines) (err_idx + context_lines + 1) in
  for_each (collect_line lines) (range start end_) st.

(** The order [list.sort] uses on the pairs [(idx, line)]. *)
Definition tuple_le (a b : Z * string) : Prop :=
  a.1 < b.1 ∨ (a.1 = b.1 ∧ String.leb a.2 b.2 = true).

#[global] Instance tuple_le_dec (a b : Z * string) : Decision (tuple_le a b).
Proof. unfold tuple_le. apply _. Defined.

(** The excerpt taken from the lines of the located entry. *)
Definition excerpt (lines : list string) (max_lines context_lines : Z)
    : result (list string) :=
  let error_indices := find_error_indices lines in
  match error_indices with
  | _ :: _ =>
      '(result_lines, _) ←
        for_each (collect_window lines context_lines) error_indices ([], ∅);
      let result_lines := merge_sort tuple_le result_lines in
      if max_lines <? len result_lines
      then Ok (snd <$> slice_from result_lines (- max_lines))
      else Ok (snd <$> result_lines)
  | [] =>
      Ok (if max_lines <? len lines then slice_from lines (- max_lines) else lines)
  end.

(** The body of the [try] block. *)
Definition extract_body (logs_zip : blob) (failing_job_name : string)
    (failing_step_name : option string) (max_lines context_lines : Z)
    : result (option (list string)) :=
  zip_ref ← logs_zip;
  let log_file :=
    locate_log_file (ZipFile.namelist zip_ref) failing_job_name failing_step_name in
  match log_file with
  | Some name =>
      if truthy_str name then
        content ← ZipFile.read zip_ref name;
        let lines := splitlines (decode_utf8_replace content) in
        Some <$> excerpt lines max_lines context_lines
      else Ok None
  | None => Ok None
  end.

Definition extract_failing_step_logs (logs_zip : blob) (failing_job_name : string)
    (failing_step_name : option string) (max_lines context_lines : Z)
    : option (list string) :=
  catch (extract_body logs_zip failing_job_name failing_step_name
           max_lines context_lines)
        (fun _ => None).

(** ** The log stage of [analyze] (analysis.py, step 4) *)

(** The first step whose conclusion is a failing one. *)
Definition first_failing_step (steps : list dict) : option dict :=
  List.find
    (fun step => str_in (lower (or_empty (step !! "conclusion"))) failing_conclusions)
    steps.

(** The body of [for job in failing_jobs]: it sets [job.log_lines]. *)
Definition extract_for_job (logs : blob) (job : JobMeta.t) : JobMeta.t :=
  let failing_step := first_failing_step (JobMeta.steps job) in
  let failing_step_name :=
    match failing_step with
    | Some step => step !! "name"
    | None => None
    end in
  JobMeta.set_log_lines job
    (extract_failing_step_logs logs (JobMeta.name job) failing_step_name 50 5).

(** [save_logs_dir / f"run-{run.id}-logs.zip"] *)
Definition logs_file (save_logs_dir : string) (run : RunMeta.t) : string :=
  save_logs_dir +:+ "/" +:+ "run-" +:+ RunMeta.id run +:+ "-logs.zip".

(** What the [try] block leaves behind: the failing jobs with their
    excerpts, [cancellation_reason] and [logs_path].  [download] is the
    outcome of [provider.download_logs_zip], [write] that of creating the
    directory and writing the file. *)
Definition log_stage (download : result blob) (write : string -> result ())
    (run : RunMeta.t) (jobs failing_jobs : list JobMeta.t)
    (want_logs : bool) (save_logs_dir : option string)
    : list JobMeta.t * option string * option string :=
  let is_failed :=
    str_in (lower (or_empty (RunMeta.conclusion run))) failing_conclusions in
  if is_failed || want_logs then
    match download with
    | Ok logs =>
        let failing_jobs :=
          if is_failed && bool_decide (failing_jobs ≠ [])
          then extract_for_job logs <$> failing_jobs
          else failing_jobs in
        let cancellation_reason := cancellation_reason_of run jobs failing_jobs in
        let logs_path :=
          match save_logs_dir with
          | Some dir =>
              match write (logs_file dir run) with
              | Ok _ => Some (logs_file dir run)
              | Raise _ => None
              end
          | None => None
          end in
        (failing_jobs, cancellation_reason, logs_path)
    | Raise _ => (failing_jobs, None, None)
    end
  else (failing_jobs, None, None).

(** ** [analyze] (analysis.py) *)

Module Report.
Record t : Type := mk {
  run : RunMeta.t;
  workflow_name : string;
  failing_jobs : list JobMeta.t;
  baseline_p50_ms : option Z;
  last_success : option RunMeta.t;
  compare : option CompareMeta.t;
  suspects : list string;
  logs_path : option string;
  cancellation_reason : option string
}.
End Report.

(** The provider protocol: what each call answers, or the error it raises. *)
Class BaseProvider : Type := {
  get_run : string -> result RunMeta.t;
  list_run_jobs : RunMeta.t -> result (list JobMeta.t);
  get_workflow_name : RunMeta.t -> result string;
  list_successful_runs : RunMeta.t -> Z -> result (list RunMeta.t);
  compare_since_last_success :
    RunMeta.t -> option RunMeta.t -> result (option CompareMeta.t);
  download_logs_zip : RunMeta.t -> result blob
}.

Definition analyze `{BaseProvider} (write : string -> result ())
    (run_url : string) (sample_limit : Z) (want_logs : bool)
    (save_logs_dir : option string) : result Report.t :=
  (* 1) fetch run, jobs, workflow *)
  run ← get_run run_url;
  jobs ← list_run_jobs run;
  wf_name ← get_workflow_name run;
  let failing_jobs := pick_failing_jobs jobs in
  (* 2) successes for baseline + last success *)
  successes ← list_successful_runs run sample_limit;
  let '(last_success, durations) := scan_successes run successes in
  let baseline_p50 := baseline_of durations in
  (* 3) compare *)
  cmp ← compare_since_last_success run last_success;
  (* 4) logs *)
  let '(failing_jobs, cancellation_reason, logs_path) :=
    log_stage (download_logs_zip run) write run jobs failing_jobs
      want_logs save_logs_dir in
  (* 5) suspects *)
  let suspects := gen_suspects run jobs cmp baseline_p50 in
  Ok (Report.mk run wf_name failing_jobs baseline_p50 last_success cmp
        suspects logs_path cancellation_reason).

(** ** [human_ms] (utils.py) *)

(** [str(n)]: the decimal numeral of an integer. *)
Definition str_int (n : Z) : string := pretty n.




(** ** [extract_error_lines] (ai_analysis.py) and the highlighting of
    [render_report] (render.py) *)

Definition ai_error_patterns : list string :=
  ["error"; "Error"; "ERROR"; "failed"; "Failed"; "FAILED";
   "fatal"; "Fatal"; "FATAL"; "Exception"; "Traceback";
   "assertion"; "AssertionError"; "exit code"; "exit status"].

(** [any(pattern in line for pattern in error_patterns)] *)
Definition any_pattern_in (patterns : list string) (line : string) : bool :=
  existsb (fun pattern => contains line pattern) patterns.

Definition extract_error_lines (log_lines : list string) : list string :=
  fold_left
    (fun error_lines line =>
       if any_pattern_in ai_error_patterns line then error_lines ++ [line]
       else error_lines)
    log_lines [].

(** The patterns of [render_report]; a line that holds one is shown in red. *)
Definition render_error_patterns : list string :=
  ["error"; "Error"; "ERROR"; "failed"; "Failed"; "FAILED"; "fatal"; "Fatal"; "FATAL";
   "Exception"; "Traceback"; "assertion failed"; "AssertionError"].

Definition is_highlighted (line : string) : bool :=
  any_pattern_in render_error_patterns line.

(** ** [GitHubClient._get] (providers/github_api.py) *)

(** What the client and the provider raise: the two errors of the client, a
    transport error of the HTTP library, or an exception of Python. *)
Inductive gh_error : Type :=
  | GitHubAuthError
  | GitHubAPIError
  | TransportError
  | PythonError (e : exn).

Inductive gh_result (A : Type) : Type :=
  | Done (a : A)
  | Fail (e : gh_error).
Arguments Done {A} a.
Arguments Fail {A} e.

#[global] Instance gh_result_ret : MRet gh_result := fun _ a => Done a.
#[global] Instance gh_result_bind : MBind gh_result := fun _ _ k m =>
  match m with
  | Done a => k a
  | Fail e => Fail e
  end.

(** An exception of Python inside the provider. *)
Definition lift_result {A : Type} (m : result A) : gh_result A :=
  match m with
  | Ok a => Done a
  | Raise e => Fail (PythonError e)
  end.

(** An HTTP response, as far as [_get] reads it: the status code, the value
    of [r.headers.get("ETag")], and the body. *)
Module Response.
Record t : Type := mk {
  status_code : Z;
  etag : option string;
  body : string
}.
End Response.

(** [self.client.get(url, params=..., headers=...)]: the answer of the
    network to a request. *)
Definition http_get : Type := string -> dict -> dict -> gh_result Response.t.

(** The headers [_get] sends. *)
Definition request_headers (use_cache : bool) (etags : gmap string string)
    (url : string) : dict :=
  let headers : dict := ∅ in
  if use_cache && bool_decide (is_Some (etags !! url))
  then <[ "If-None-Match" := etags !!! url ]> headers
  else headers.

(** [_get(url, params)]: the response or the error raised, and [self._etag]
    afterwards. *)
Definition get_ (use_cache : bool) (get : http_get) (etags : gmap string string)
    (url : string) (params : option dict)
    : gh_result Response.t * gmap string string :=
  let headers := request_headers use_cache etags url in
  match get url (default ∅ params) headers with
  | Fail e => (Fail e, etags)
  | Done r =>
      if Response.status_code r =? 401 then (Fail GitHubAuthError, etags)
      else if (400 <=? Response.status_code r) && negb (Response.status_code r =? 304)
      then (Fail GitHubAPIError, etags)
      else
        let etags :=
          if truthy_opt_str (Response.etag r)
          then <[ url := or_empty (Response.etag r) ]> etags
          else etags in
        (Done r, etags)
  end.

(** ** [GitHubProvider] (providers/github_provider.py) *)

Module GHRun.
Record t : Type := mk {
  id : Z;
  status : string;
  conclusion : option string;
  event : string;
  run_attempt : Z;
  run_started_at : datetime;
  updated_at : datetime;
  head_branch : string;
  head_sha : string;
  actor_login : option string;
  workflow_id : Z;
  html_url : string;
  owner : string;
  repo : string
}.
End GHRun.

Module GHJob.
Record t : Type := mk {
  id : Z;
  name : string;
  conclusion : option string;
  started_at : option string;
  completed_at : option string;
  steps : list dict
}.
End GHJob.

(** The calls of [GitHubClient] that the provider makes, each with its
    answer or the error it raises. *)
Class GitHubClient : Type := {
  gh_get_run : string -> string -> Z -> gh_result GHRun.t;
  gh_list_jobs : string -> string -> Z -> gh_result (list GHJob.t);
  gh_logs_zip : string -> string -> Z -> gh_result blob
}.

(** [owner, repo = run.repo.split("/")]: the unpacking raises [ValueError]
    unless there are two parts. *)
Definition split_repo (repo : string) : result (string * string) :=
  match split "/" repo with
  | [owner; name] => Ok (owner, name)
  | _ => Raise ValueError
  end.

Definition provider_get_run `{GitHubClient} (run_url : string) : gh_result RunMeta.t :=
  parsed ← lift_result (parse_github_run_url run_url);
  run ← gh_get_run (ParsedRunURL.owner parsed) (ParsedRunURL.repo parsed)
          (ParsedRunURL.run_id parsed);
  Done (RunMeta.mk (str_int (GHRun.id run)) "github"
          (ParsedRunURL.owner parsed +:+ "/" +:+ ParsedRunURL.repo parsed)
          (GHRun.head_branch run) (GHRun.event run) (GHRun.actor_login run)
          (GHRun.status run) (GHRun.conclusion run) (GHRun.run_attempt run)
          (GHRun.run_started_at run) (GHRun.updated_at run)
          (Some (GHRun.head_sha run)) (GHRun.html_url run)
          (Some (str_int (GHRun.workflow_id run)))).

(** The [JobMeta] built from a job of the API. *)
Definition job_meta_of (j : GHJob.t) : JobMeta.t :=
  JobMeta.mk (str_int (GHJob.id j)) (GHJob.name j) (GHJob.conclusion j)
    (GHJob.started_at j) (GHJob.completed_at j) (GHJob.steps j) None.

Definition provider_list_run_jobs `{GitHubClient} (run : RunMeta.t)
    : gh_result (list JobMeta.t) :=
  parts ← lift_result (split_repo (RunMeta.repo run));
  let '(owner, repo) := parts in
  run_id ← lift_result (py_int (RunMeta.id run));
  jobs ← gh_list_jobs owner repo run_id;
  Done (job_meta_of <$> (jobs : list GHJob.t)).

Definition provider_download_logs_zip `{GitHubClient} (run : RunMeta.t)
    : gh_result blob :=
  parts ← lift_result (split_repo (RunMeta.repo run));
  let '(owner, repo) := parts in
  run_id ← lift_result (py_int (RunMeta.id run));
  gh_logs_zip owner repo run_id.

(** * Reference definitions, in the words of the specification *)

(** The last [n] elements of a sequence. *)
Definition last_n {A : Type} (n : nat) (l : list A) : list A :=
  drop (length l - n) l.

(** [a], or [b] when [a] is absent. *)
Definition or_else {A : Type} (a b : option A) : option A :=
  match a with
  | Some x => Some x
  | None => b
  end.

(** ** The excerpt: windows around the error lines *)

(** Line [e] exists and matches an error marker. *)
Definition error_at (lines : list string) (e : Z) : bool :=
  match lines !! Z.to_nat e with
  | Some line => is_error_line line
  | None => false
  end.

(** The indices of the matching lines, ascending. *)
Definition error_positions (lines : list string) : list Z :=
  filter (fun e => Is_true (error_at lines e)) (seqZ 0 (len lines)).

(** Index [i] lies at most [context_lines] before or after index [e]. *)
Definition in_window (context_lines e i : Z) : bool :=
  (e - context_lines <=? i) && (i <=? e + context_lines).

(** Index [i] lies in the window of some matching line. *)
Definition near_error (lines : list string) (context_lines i : Z) : bool :=
  existsb (fun e => in_window context_lines e i) (error_positions lines).

(** The union of the windows, clipped to the file: every index once, in
    the order of the file. *)
Definition window_indices (lines : list string) (context_lines : Z) : list Z :=
  filter (fun i => Is_true (near_error lines context_lines i)) (seqZ 0 (len lines)).

Definition window_lines (lines : list string) (context_lines : Z) : list string :=
  (fun i => lines !!! Z.to_nat i) <$> window_indices lines context_lines.

(** The excerpt the specification describes: the tail of the file when no
    line matches, the union of the windows otherwise, each cut to its last
    [max_lines] lines. *)
Definition spec_excerpt (lines : list string) (max_lines context_lines : Z)
    : list string :=
  match error_positions lines with
  | [] => last_n (Z.to_nat max_lines) lines
  | _ :: _ => last_n (Z.to_nat max_lines) (window_lines lines context_lines)
  end.

(** What the collecting loops maintain: every index is collected once, the
    set holds the collected indices, and each index comes with its line. *)
Definition collected_inv (lines : list string) (st : collected) : Prop :=
  NoDup st.1.*1
  ∧ (∀ i : Z, i ∈ st.2 ↔ i ∈ st.1.*1)
  ∧ (∀ (i : Z) (line : string),
       (i, line) ∈ st.1 → 0 ≤ i ∧ lines !! Z.to_nat i = Some line).

(** ** The resolution of the log entry, as the specification words it *)




(** The resolution the code performs: four searches, each for the first
    entry in archive order that passes its test. *)
Definition locate_cascade (names : list string) (job_name : string)
    (step_name : option string) : option string :=
  or_else
    (match step_name with
     | Some step =>
         if truthy_str step then
           or_else (List.find (step_exact_test step) names)
                   (List.find (step_partial_test step) names)
         else None
     | None => None
     end)
    (if truthy_str job_name then
       or_else (List.find (job_exact_test job_name) names)
               (List.find (job_partial_test job_name) names)
     else None).

(** ** The last success, by a search for the maximum start *)

(** The sampled run that started last among those that started before
    [cur_start]. *)
Definition latest_before (cur_start : datetime) (successes : list RunMeta.t)
    : option RunMeta.t :=
  fold_left
    (fun best r =>
       if RunMeta.started_at r <? cur_start then
         match best with
         | Some b => if RunMeta.started_at b <? RunMeta.started_at r then Some r else best
         | None => Some r
         end
       else best)
    successes None.

(** ** The suspect rules as an ordered list *)

(** Rule 1: the baseline is usable and the run took more than 1.5 times it. *)
Definition duration_rule (run : RunMeta.t) (baseline_p50_ms : option Z) : bool :=
  match baseline_p50_ms with
  | Some b =>
      negb (b =? 0)
      && exceeds_one_and_a_half
           (duration_ms (RunMeta.started_at run) (RunMeta.updated_at run)) b
  | None => false
  end.

(** A rule on the changed files fires only when there is a diff. *)
Definition diff_rule (test : list string -> bool) (cmp : option CompareMeta.t) : bool :=
  match cmp with
  | Some c => test (filenames_of c)
  | None => false
  end.

(** The five rules in their fixed order, each with its message. *)
Definition suspect_rules (run : RunMeta.t) (cmp : option CompareMeta.t)
    (baseline_p50_ms : option Z) : list (bool * string) :=
  [ (duration_rule run baseline_p50_ms, suspect_duration);
    (diff_rule touches_lockfile cmp, suspect_lockfile);
    (diff_rule touches_workflow cmp, suspect_workflow);
    (diff_rule touches_dockerfile cmp, suspect_dockerfile);
    (is_dispatch run, suspect_dispatch) ].

(** The five messages in rule order. *)
Definition all_suspects : list string :=
  [suspect_duration; suspect_lockfile; suspect_workflow; suspect_dockerfile;
   suspect_dispatch].

(** The messages of the rules that fired, in rule order. *)
Definition fired (rules : list (bool * string)) : list string :=
  snd <$> List.filter fst rules.

(** ** The log text the cancellation rules read *)




(** ** Decimal run identifiers *)

(** A non-empty string of decimal digits. *)
Definition is_decimal (s : string) : bool :=
  truthy_str s && forallb_str is_digit s.

Fixpoint decimal_value_from (acc : Z) (s : string) : Z :=
  match s with
  | EmptyString => acc
  | String c s' => decimal_value_from (10 * acc + digit_value c) s'
  end.

(** The number a string of decimal digits denotes. *)
Definition decimal_value (s : string) : Z := decimal_value_from 0 s.

(** ** The failing jobs of a report *)

(** The conclusion of the job is one of the failing ones, whatever its
    case. *)
Definition job_failing (j : JobMeta.t) : bool :=
  str_in (lower (or_empty (JobMeta.conclusion j))) failing_conclusions.




(** An ASCII character that is not a line boundary. *)
Definition plain_char (c : ascii) : bool :=
  (N_of_ascii c <? 128)%N && negb (is_char "013" c) && negb (is_line_break c).

(** The string holds no separator [sep]. *)
Definition no_sep (sep : ascii) (s : string) : Prop :=
  forallb_str (fun c => negb (Ascii.eqb c sep)) s = true.

(** * Sample data *)

Definition sample_run (event : string) (conclusion : option string)
    (started_at updated_at : datetime) : RunMeta.t :=
  RunMeta.mk "1" "github" "owner/repo" "main" event None "completed" conclusion 1
    started_at updated_at None "https://github.com/owner/repo/actions/runs/1" None.

Definition sample_job (name : string) (conclusion : option string)
    (log_lines : option (list string)) : JobMeta.t :=
  JobMeta.mk "1" name conclusion None None [] log_lines.

Definition file_named (filename : string) : dict := {[ "filename" := filename ]}.

(** A provider that answers every call from fixed data. *)
Definition sample_provider (run : RunMeta.t) (jobs : list JobMeta.t)
    (successes : list RunMeta.t) (logs : result blob) : BaseProvider := {|
  get_run := fun _ => Ok run;
  list_run_jobs := fun _ => Ok jobs;
  get_workflow_name := fun _ => Ok "CI";
  list_successful_runs := fun _ limit => Ok (take (Z.to_nat limit) successes);
  compare_since_last_success := fun _ last_success =>
    Ok (match last_success with
        | Some _ => Some (CompareMeta.mk 1 [file_named "package-lock.json"])
        | None => None
        end);
  download_logs_zip := fun _ => logs
|}.

(** An archive with the given entries, each a name and its text; reading a
    name that is not in the archive raises [KeyError]. *)
Definition sample_archive (entries : list (string * string)) : ZipFile.t :=
  ZipFile.mk entries.*1
    (fun name =>
       match List.find (fun e => String.eqb e.1 name) entries with
       | Some e => Ok (list_byte_of_string e.2)
       | None => Raise KeyError
       end).

Definition newline : string := String "010" EmptyString.




(** A step log of 21 lines: one error line with ten benign lines on each
    side. *)
Definition sample_lines : list string :=
  ["b1"; "b2"; "b3"; "b4"; "b5"; "b6"; "b7"; "b8"; "b9"; "b10";
   "error: boom";
   "a1"; "a2"; "a3"; "a4"; "a5"; "a6"; "a7"; "a8"; "a9"; "a10"].

Definition sample_logs : ZipFile.t :=
  sample_archive
    [("build/1_Set up job.txt", "ready");
     ("build/2_Run tests.txt", join newline sample_lines)].

(** A client for the repository [octo/demo]: it answers for run 42 with the
    given run and jobs, and with an API error for anything else. *)
Definition sample_client (run : GHRun.t) (jobs : list GHJob.t) : GitHubClient := {|
  gh_get_run := fun owner repo run_id =>
    if String.eqb owner "octo" && String.eqb repo "demo" && (run_id =? 42)
    then Done run else Fail GitHubAPIError;
  gh_list_jobs := fun owner repo run_id =>
    if String.eqb owner "octo" && String.eqb repo "demo" && (run_id =? GHRun.id run)
    then Done jobs else Fail GitHubAPIError;
  gh_logs_zip := fun _ _ _ => Fail GitHubAPIError
|}.

Definition sample_gh_run : GHRun.t :=
  GHRun.mk 42 "completed" (Some "failure") "push" 1 100 160 "main" "abc123"
    (Some "octocat") 7 "https://github.com/octo/demo/actions/runs/42" "octo" "demo".

Definition sample_gh_job : GHJob.t :=
  GHJob.mk 11 "build" (Some "failure") None None [].

(** * Proofs *)

(** ** Generic helpers *)

Lemma len_nonneg {A : Type} (l : list A) : 0 ≤ len l.
Proof. unfold len. lia. Qed.

Lemma len_app {A : Type} (l k : list A) : len (l ++ k) = len l + len k.
Proof. unfold len. rewrite length_app. lia. Qed.

Lemma takes_total {A : Type} `{Inhabited A} (l : list A) (i : nat) :
  (i < length l)%nat → l !! i = Some (l !!! i).
Proof.
  intros Hi. destruct (lookup_lt_is_Some_2 l i Hi) as [x Hx].
  rewrite Hx. f_equal. symmetry. by apply list_lookup_total_correct.
Qed.

(** ** The median *)

Lemma sorted_unique (values xs : list Z) :
  values ≡ₚ xs → Sorted Z.le xs → sorted values = xs.
Proof.
  intros Hp Hs. unfold sorted.
  apply (Sorted_unique Z.le); [apply Sorted_merge_sort; apply _ | done |].
  by rewrite merge_sort_Permutation.
Qed.

Lemma median_ms_of_sorted (values xs : list Z) :
  values ≡ₚ xs → Sorted Z.le xs → xs ≠ [] →
  median_ms values =
    if len xs mod 2 =? 1 then xs !!! Z.to_nat (len xs / 2)
    else (xs !!! Z.to_nat (len xs / 2 - 1) + xs !!! Z.to_nat (len xs / 2)) / 2.
Proof.
  intros Hp Hs Hne. unfold median_ms.
  destruct values as [|v values].
  - apply Permutation_nil_l in Hp. by subst.
  - by rewrite (sorted_unique _ _ Hp Hs).
Qed.

(** C5. [median_ms] of the empty sequence is 0; it does not depend on the
    order of its input; on an input of odd length it is the middle element
    of the ascending arrangement; on a non-empty input of even length it is
    the floor of the mean of the two middle elements, which for durations
    that are not negative is the mean truncated. *)
Theorem median_ms_spec :
  median_ms [] = 0
  ∧ (∀ values values' : list Z,
       values ≡ₚ values' → median_ms values = median_ms values')
  ∧ (∀ values xs : list Z,
       values ≡ₚ xs → Sorted Z.le xs → len xs mod 2 = 1 →
       xs !! Z.to_nat (len xs / 2) = Some (median_ms values))
  ∧ (∀ values xs : list Z,
       values ≡ₚ xs → Sorted Z.le xs → xs ≠ [] → len xs mod 2 = 0 →
       ∃ a b : Z,
         xs !! Z.to_nat (len xs / 2 - 1) = Some a
         ∧ xs !! Z.to_nat (len xs / 2) = Some b
         ∧ median_ms values = (a + b) / 2
         ∧ 2 * median_ms values ≤ a + b < 2 * median_ms values + 2
         ∧ (Forall (Z.le 0) values → median_ms values = Z.quot (a + b) 2)).
Proof.
  split; [done|]. split; [|split].
  - intros values values' Hp.
    destruct (decide (values = [])) as [->|Hne].
    + apply Permutation_nil_l in Hp. by subst.
    + assert (Hs : Sorted Z.le (sorted values)) by (apply Sorted_merge_sort; apply _).
      assert (Hv : values ≡ₚ sorted values)
        by (unfold sorted; by rewrite merge_sort_Permutation).
      assert (Hne' : sorted values ≠ []).
      { intros He. rewrite He in Hv. by apply Permutation_nil_r in Hv. }
      rewrite (median_ms_of_sorted values (sorted values)) by done.
      rewrite (median_ms_of_sorted values' (sorted values)); [done| |done|done].
      by rewrite <- Hp.
  - intros values xs Hp Hs Hodd.
    assert (Hne : xs ≠ []) by (intros ->; discriminate Hodd).
    rewrite (median_ms_of_sorted _ _ Hp Hs Hne).
    rewrite Hodd. simpl. apply takes_total.
    pose proof (len_nonneg xs) as Hn. unfold len in *.
    assert (0 < Z.of_nat (length xs)) by (destruct xs; [done|simpl; lia]).
    apply Nat2Z.inj_lt. rewrite Z2Nat.id by (apply Z.div_pos; lia).
    apply Z.div_lt; lia.
  - intros values xs Hp Hs Hne Heven.
    rewrite (median_ms_of_sorted _ _ Hp Hs Hne).
    rewrite Heven. simpl.
    assert (Hpos : 2 ≤ len xs).
    { unfold len in *. destruct xs as [|x [|y xs]]; [done|discriminate Heven|].
      simpl. lia. }
    assert (Hhalf : 1 ≤ len xs / 2 < len xs).
    { split; [apply Z.div_le_lower_bound; lia | apply Z.div_lt; lia]. }
    exists (xs !!! Z.to_nat (len xs / 2 - 1)), (xs !!! Z.to_nat (len xs / 2)).
    split; [apply takes_total; unfold len in *; lia|].
    split; [apply takes_total; unfold len in *; lia|].
    split; [done|].
    set (a := xs !!! Z.to_nat (len xs / 2 - 1)).
    set (b := xs !!! Z.to_nat (len xs / 2)).
    split.
    + pose proof (Z.div_mod (a + b) 2 ltac:(lia)).
      pose proof (Z.mod_pos_bound (a + b) 2 ltac:(lia)). lia.
    + intros Hnn.
      assert (Hall : ∀ x, x ∈ xs → 0 ≤ x).
      { intros x Hx. rewrite <- Hp in Hx.
        by apply (proj1 (Forall_forall _ _) Hnn). }
      assert (0 ≤ a) by (apply Hall, list_elem_of_lookup_total_2; unfold len in *; lia).
      assert (0 ≤ b) by (apply Hall, list_elem_of_lookup_total_2; unfold len in *; lia).
      symmetry. apply Z.quot_div_nonneg; lia.
Qed.

(** The median on three and on four sample durations. *)
Lemma median_ms_spec_witness :
  median_ms [3; 1; 2] = median_ms [2; 3; 1]
  ∧ [1; 2; 3] !! 1%nat = Some (median_ms [3; 1; 2])
  ∧ median_ms [4; 1; 3; 2] = (2 + 3) / 2.
Proof.
  destruct median_ms_spec as (_ & Hperm & Hodd & Heven).
  split; [|split].
  - apply Hperm. by apply (bool_decide_unpack _).
  - apply (Hodd [3; 1; 2] [1; 2; 3]).
    + by apply (bool_decide_unpack _).
    + repeat constructor; lia.
    + reflexivity.
  - destruct (Heven [4; 1; 3; 2] [1; 2; 3; 4]) as (a & b & Ha & Hb & Hm & _).
    + by apply (bool_decide_unpack _).
    + repeat constructor; lia.
    + done.
    + reflexivity.
    + injection Ha as <-. injection Hb as <-. exact Hm.
Defined.

(** ** The suspect rules *)

Lemma gen_suspects_fired (run : RunMeta.t) (jobs : list JobMeta.t)
    (cmp : option CompareMeta.t) (baseline : option Z) :
  gen_suspects run jobs cmp baseline = take 3 (fired (suspect_rules run cmp baseline)).
Proof.
  unfold gen_suspects, suspect_rules, fired, duration_rule, diff_rule, append_if.
  destruct baseline as [b|]; simpl truthy_opt_int; simpl default;
    [destruct (b =? 0); simpl negb; simpl andb;
     [|destruct (exceeds_one_and_a_half _ b)]|];
    (destruct cmp as [c|];
     [destruct (touches_lockfile (filenames_of c)),
               (touches_workflow (filenames_of c)),
               (touches_dockerfile (filenames_of c))|]);
    destruct (is_dispatch run); reflexivity.
Qed.

Lemma fired_sublist (rules : list (bool * string)) : fired rules `sublist_of` rules.*2.
Proof.
  unfold fired. induction rules as [|[[] m] rules IH]; simpl.
  - constructor.
  - by apply sublist_skip.
  - by apply sublist_cons.
Qed.


(** C6. Whatever the input, the suspects returned are the first three
    messages of the rules that fired, taken in the fixed rule order
    (duration spike, lockfile, workflow change, container build file,
    dispatch trigger): at most three of them, and a subsequence of the five
    messages in that order.  For a diff that touches [package-lock.json] and
    [.github/workflows/ci.yml], no baseline and a trigger that is no
    dispatch, the result is the lockfile suspect then the workflow suspect. *)
Theorem gen_suspects_order_and_cap :
  (∀ (run : RunMeta.t) (jobs : list JobMeta.t) (cmp : option CompareMeta.t)
     (baseline : option Z),
     gen_suspects run jobs cmp baseline = take 3 (fired (suspect_rules run cmp baseline))
     ∧ (length (gen_suspects run jobs cmp baseline) ≤ 3)%nat
     ∧ gen_suspects run jobs cmp baseline `sublist_of` all_suspects)
  ∧ (∀ (run : RunMeta.t) (jobs : list JobMeta.t) (total_commits : Z),
       is_dispatch run = false →
       gen_suspects run jobs
         (Some (CompareMeta.mk total_commits
                  [file_named "package-lock.json";
                   file_named ".github/workflows/ci.yml"]))
         None
       = [suspect_lockfile; suspect_workflow]).
Proof.
  split.
  - intros run jobs cmp baseline. rewrite gen_suspects_fired.
    split; [done|]. split.
    + rewrite length_take. lia.
    + etrans; [apply sublist_take|]. apply (fired_sublist (suspect_rules _ _ _)).
  - intros run jobs total_commits Hev. rewrite gen_suspects_fired.
    unfold suspect_rules, fired, duration_rule, diff_rule. rewrite Hev.
    replace (filenames_of _) with ["package-lock.json"; ".github/workflows/ci.yml"]
      by (by vm_compute).
    reflexivity.
Qed.

(** The two-suspect example on a pushed run. *)
Lemma gen_suspects_order_and_cap_witness :
  gen_suspects (sample_run "push" (Some "failure") 0 60) []
    (Some (CompareMeta.mk 2
             [file_named "package-lock.json"; file_named ".github/workflows/ci.yml"]))
    None
  = [suspect_lockfile; suspect_workflow].
Proof.
  apply (proj2 gen_suspects_order_and_cap). reflexivity.
Defined.




(** ** The last success *)

Lemma scan_successes_fold (cur : datetime) (successes : list RunMeta.t)
    (last : option RunMeta.t) (durations : list Z) :
  fold_left (scan_step cur) successes (last, durations)
  = (or_else last (List.find (fun r => RunMeta.started_at r <? cur) successes),
     durations
     ++ ((fun r => duration_ms (RunMeta.started_at r) (RunMeta.updated_at r))
           <$> successes)).
Proof.
  revert last durations.
  induction successes as [|r successes IH]; intros last durations; simpl.
  - rewrite app_nil_r. by destruct last.
  - rewrite IH, <- app_assoc. simpl. f_equal.
    destruct last as [l|]; simpl.
    + by rewrite andb_false_r.
    + rewrite andb_true_r. by destruct (RunMeta.started_at r <? cur).
Qed.

Lemma scan_successes_spec (run : RunMeta.t) (successes : list RunMeta.t) :
  scan_successes run successes
  = (List.find (fun r => RunMeta.started_at r <? RunMeta.started_at run) successes,
     (fun r => duration_ms (RunMeta.started_at r) (RunMeta.updated_at r))
       <$> successes).
Proof. unfold scan_successes. by rewrite scan_successes_fold. Qed.

(** C4. The last success that [analyze] reports is the first sampled run,
    in the order the provider returned them, whose start is strictly before
    the start of the analysed run, and none when there is no such run; the
    scan computes exactly that, and it is not a search for the latest
    start: on a sample that is not ordered by time the two differ. *)
Theorem last_success_is_first_earlier :
  (∀ (provider : BaseProvider) (write : string → result ()) (run_url : string)
     (sample_limit : Z) (want_logs : bool) (save_logs_dir : option string)
     (report : Report.t),
     analyze write run_url sample_limit want_logs save_logs_dir = Ok report →
     ∃ successes : list RunMeta.t,
       list_successful_runs (Report.run report) sample_limit = Ok successes
       ∧ Report.last_success report
         = List.find
             (fun r => RunMeta.started_at r <? RunMeta.started_at (Report.run report))
             successes)
  ∧ (∀ (run : RunMeta.t) (successes : list RunMeta.t),
       (scan_successes run successes).1
       = List.find (fun r => RunMeta.started_at r <? RunMeta.started_at run) successes)
  ∧ (∃ (run : RunMeta.t) (successes : list RunMeta.t),
       (scan_successes run successes).1
       ≠ latest_before (RunMeta.started_at run) successes).
Proof.
  split; [|split].
  - intros provider write run_url sample_limit want_logs save_logs_dir report.
    unfold analyze, mbind, result_bind.
    destruct (get_run run_url) as [run|]; [|done].
    destruct (list_run_jobs run) as [jobs|]; [|done].
    destruct (get_workflow_name run) as [wf|]; [|done].
    destruct (list_successful_runs run sample_limit) as [successes|] eqn:Hs; [|done].
    rewrite scan_successes_spec.
    destruct (compare_since_last_success run _) as [cmp|]; [|done].
    destruct (log_stage _ _ _ _ _ _ _) as [[fj cr] lp].
    intros [= <-]. simpl. eauto.
  - intros run successes. by rewrite scan_successes_spec.
  - exists (sample_run "push" (Some "failure") 100 160),
      [sample_run "push" (Some "success") 10 20;
       sample_run "push" (Some "success") 50 60].
    by vm_compute.
Qed.

(** A sample of two successes, both before the run: the first one is kept. *)
Lemma last_success_is_first_earlier_witness :
  ∃ successes : list RunMeta.t,
    successes = [sample_run "push" (Some "success") 10 20;
                 sample_run "push" (Some "success") 50 60]
    ∧ List.find (fun r => RunMeta.started_at r <? 100) successes
      = Some (sample_run "push" (Some "success") 10 20).
Proof.
  pose (provider :=
    sample_provider (sample_run "push" (Some "failure") 100 160) []
      [sample_run "push" (Some "success") 10 20;
       sample_run "push" (Some "success") 50 60]
      (Raise OSError)).
  destruct (proj1 last_success_is_first_earlier provider (fun _ => Ok ())
              "https://github.com/owner/repo/actions/runs/1" 50 false None
              (Report.mk (sample_run "push" (Some "failure") 100 160) "CI" [] (Some 10000)
                 (Some (sample_run "push" (Some "success") 10 20))
                 (Some (CompareMeta.mk 1 [file_named "package-lock.json"]))
                 [suspect_duration; suspect_lockfile] None None)
              eq_refl)
    as (successes & Hs & Hl).
  exists successes. split.
  - by injection Hs as <-.
  - simpl in Hl. by rewrite <- Hl.
Defined.

(** ** The cancellation reason *)





(** ** Run-URL parsing *)

Lemma digit_not_space (c : ascii) : is_digit c = true → is_space c = false.
Proof. destruct c as [[] [] [] [] [] [] [] []]; by vm_compute. Qed.

Lemma digit_not_sign (c : ascii) :
  is_digit c = true → is_char "-" c = false ∧ is_char "+" c = false.
Proof. destruct c as [[] [] [] [] [] [] [] []]; by vm_compute. Qed.

Lemma rstrip_digits (s : string) :
  forallb_str is_digit s = true → rstrip is_space s = s.
Proof.
  induction s as [|c s IH]; [done|]. simpl.
  intros [Hc Hs]%andb_true_iff. rewrite (IH Hs).
  destruct s; [|done]. by rewrite (digit_not_space c Hc).
Qed.

Lemma lstrip_digits (s : string) :
  forallb_str is_digit s = true → lstrip is_space s = s.
Proof.
  destruct s as [|c s]; [done|]. simpl.
  intros [Hc _]%andb_true_iff. by rewrite (digit_not_space c Hc).
Qed.

Lemma digits_value_decimal (s : string) (acc : Z) (after_digit : bool) :
  forallb_str is_digit s = true →
  s ≠ EmptyString ∨ after_digit = true →
  digits_value acc after_digit s = Some (decimal_value_from acc s).
Proof.
  revert acc after_digit.
  induction s as [|c s IH]; intros acc after_digit Hd Hne; simpl.
  - destruct Hne as [?| ->]; done.
  - simpl in Hd. apply andb_true_iff in Hd as [Hc Hs].
    rewrite Hc. apply IH; auto.
Qed.

Lemma py_int_decimal (s : string) :
  is_decimal s = true → py_int s = Ok (decimal_value s).
Proof.
  unfold is_decimal, py_int, decimal_value, truthy_str.
  intros [Hne Hd]%andb_true_iff.
  rewrite (lstrip_digits s Hd), (rstrip_digits s Hd).
  destruct s as [|c s]; [done|].
  pose proof Hd as Hd'. simpl in Hd'. apply andb_true_iff in Hd' as [Hc _].
  destruct (digit_not_sign c Hc) as [-> ->].
  rewrite (digits_value_decimal (String c s) 0 false Hd) by (by left).
  f_equal. lia.
Qed.


Lemma parse_github_run_url_inv (url : string) (p : ParsedRunURL.t) :
  parse_github_run_url url = Ok p →
  ∃ (u : ParseResult.t) (rid : string) (rest : list string),
    urlparse url = Ok u
    ∧ str_in (ParseResult.netloc u) accepted_netlocs = true
    ∧ path_parts (ParseResult.path u)
      = ParsedRunURL.owner p :: ParsedRunURL.repo p :: "actions" :: "runs" :: rid :: rest
    ∧ py_int rid = Ok (ParsedRunURL.run_id p).
Proof.
  unfold parse_github_run_url.
  destruct (urlparse url) as [u|]; [|done]. unfold mbind at 1, result_bind at 1.
  destruct (str_in (ParseResult.netloc u) accepted_netlocs) eqn:Hn; [|done].
  simpl negb. cbv iota.
  destruct (path_parts (ParseResult.path u))
    as [|owner [|repo [|a [|r [|rid rest]]]]] eqn:Hp; try done.
  replace (len (owner :: repo :: a :: r :: rid :: rest) <? 5) with false
    by (symmetry; apply Z.ltb_ge; unfold len; simpl; lia).
  simpl.
  destruct (String.eqb_spec a "actions") as [->|]; [|done].
  destruct (String.eqb_spec r "runs") as [->|]; [|done]. simpl.
  destruct (py_int rid) as [n|] eqn:Hi; [|done]. simpl.
  intros [= <-]. exists u, rid, rest. repeat split; first [reflexivity|assumption].
Qed.




Lemma str_in_elem_of (x : string) (l : list string) : str_in x l = true ↔ x ∈ l.
Proof.
  unfold str_in. induction l as [|y l IH]; simpl.
  - split; [done|]. by intros ?%elem_of_nil.
  - by rewrite orb_true_iff, String.eqb_eq, IH, elem_of_cons.
Qed.

Lemma str_in_not_elem_of (x : string) (l : list string) : str_in x l = false ↔ x ∉ l.
Proof. rewrite <- str_in_elem_of. by destruct (str_in x l). Qed.







(** ** The resolution of the log entry *)

Lemma step_exact_test_truthy (step name : string) :
  step_exact_test step name = true → truthy_str name = true.
Proof. by destruct name. Qed.

Lemma step_partial_test_truthy (step name : string) :
  step_partial_test step name = true → truthy_str name = true.
Proof.
  destruct name; [|done]. unfold step_partial_test. by rewrite andb_false_r.
Qed.

Lemma job_exact_test_truthy (job name : string) :
  job_exact_test job name = true → truthy_str name = true.
Proof. by destruct name. Qed.

Lemma job_partial_test_truthy (job name : string) :
  job_partial_test job name = true → truthy_str name = true.
Proof. by destruct name. Qed.

Lemma find_truthy (test : string → bool) (names : list string) :
  (∀ name, test name = true → truthy_str name = true) →
  truthy_opt_str (List.find test names) = truthy_opt (List.find test names).
Proof.
  intros Ht. destruct (List.find test names) as [name|] eqn:Hf; [|done].
  apply find_some in Hf as [_ Hf]. simpl. by apply Ht.
Qed.

Lemma or_else_None {A : Type} (a : option A) : or_else a None = a.
Proof. by destruct a. Qed.

Lemma second_search (test1 test2 : string → bool) (names : list string)
    (log_file : option string) :
  truthy_opt_str log_file = false →
  (∀ name, test1 name = true → truthy_str name = true) →
  (if negb (truthy_opt_str (first_match test1 names log_file))
   then first_match test2 names (first_match test1 names log_file)
   else first_match test1 names log_file)
  = or_else (List.find test1 names) (or_else (List.find test2 names) log_file).
Proof.
  intros Hl Ht. pose proof (find_truthy test1 names Ht) as Hf.
  unfold first_match, or_else.
  destruct (List.find test1 names) as [n|]; simpl in *.
  - by rewrite Hf.
  - rewrite Hl. simpl. by destruct (List.find test2 names).
Qed.

Lemma or_else_find_truthy (test1 test2 : string → bool) (names : list string) :
  (∀ name, test1 name = true → truthy_str name = true) →
  (∀ name, test2 name = true → truthy_str name = true) →
  truthy_opt_str (or_else (List.find test1 names) (List.find test2 names))
  = truthy_opt (or_else (List.find test1 names) (List.find test2 names)).
Proof.
  intros Ht1 Ht2.
  pose proof (find_truthy test1 names Ht1). pose proof (find_truthy test2 names Ht2).
  by destruct (List.find test1 names).
Qed.

Lemma locate_log_file_cascade (names : list string) (job : string)
    (step : option string) :
  locate_log_file names job step = locate_cascade names job step.
Proof.
  unfold locate_log_file, locate_cascade.
  assert (Hjob : ∀ log_file : option string,
    truthy_opt_str log_file = false →
    (if negb (truthy_opt_str (first_match (job_exact_test job) names log_file))
     then first_match (job_partial_test job) names
            (first_match (job_exact_test job) names log_file)
     else first_match (job_exact_test job) names log_file)
    = or_else (List.find (job_exact_test job) names)
        (or_else (List.find (job_partial_test job) names) log_file)).
  { intros log_file Hl. by apply second_search, job_exact_test_truthy. }
  destruct step as [step|]; [destruct (truthy_str step)|].
  - rewrite (second_search (step_exact_test step) (step_partial_test step) names None
               eq_refl (step_exact_test_truthy step)).
    rewrite or_else_None.
    rewrite (or_else_find_truthy _ _ names (step_exact_test_truthy step)
               (step_partial_test_truthy step)).
    destruct (or_else (List.find (step_exact_test step) names) _); simpl; [done|].
    destruct (truthy_str job); [|done]. by rewrite Hjob, or_else_None.
  - simpl. destruct (truthy_str job); [|done]. by rewrite Hjob, or_else_None.
  - simpl. destruct (truthy_str job); [|done]. by rewrite Hjob, or_else_None.
Qed.

(** ** The collecting loops *)

#[global] Instance tuple_le_total : Total tuple_le.
Proof.
  intros [i s] [j t]. unfold tuple_le. simpl.
  destruct (Z.lt_trichotomy i j) as [?|[->|?]]; [by left; left| |by right; left].
  destruct (String.leb_total s t); [left|right]; by right.
Qed.

Lemma getitem_in_range {A : Type} `{Inhabited A} (l : list A) (i : Z) :
  0 ≤ i < len l →
  getitem l i = Ok (l !!! Z.to_nat i) ∧ l !! Z.to_nat i = Some (l !!! Z.to_nat i).
Proof.
  intros Hi. unfold getitem, len in *.
  assert (Hl : l !! Z.to_nat i = Some (l !!! Z.to_nat i)) by (apply takes_total; lia).
  replace (i <? 0) with false by (symmetry; apply Z.ltb_ge; lia).
  replace (0 <=? i) with true by (symmetry; apply Z.leb_le; lia).
  replace (i <? Z.of_nat (length l)) with true by (symmetry; apply Z.ltb_lt; lia).
  simpl. by rewrite Hl.
Qed.

Section collecting.

(** The lines of the located entry. *)
Variable lines : list string.

Lemma collect_line_ok (st : collected) (idx : Z) :
  collected_inv lines st → 0 ≤ idx < len lines →
  ∃ st' : collected,
    collect_line lines st idx = Ok st'
    ∧ collected_inv lines st'
    ∧ (∀ i : Z, i ∈ st'.1.*1 ↔ i ∈ st.1.*1 ∨ i = idx).
Proof.
  intros (Hnd & Hset & Hline) Hidx. destruct st as [rl ri]. simpl in *.
  unfold collect_line. case_bool_decide as Hin.
  - destruct (getitem_in_range lines idx Hidx) as [-> Hl].
    eexists. split; [reflexivity|]. simpl. split; [|].
    + split; [|split]; simpl.
      * rewrite fmap_app. simpl. apply NoDup_app. split; [done|].
        split; [|apply NoDup_singleton].
        intros i Hi ->%list_elem_of_singleton. by apply Hin, Hset.
      * intros i. rewrite fmap_app, elem_of_app, elem_of_union, Hset.
        simpl. rewrite list_elem_of_singleton, elem_of_singleton. tauto.
      * intros i line [Hi|Hi%list_elem_of_singleton]%elem_of_app; [by apply Hline|].
        injection Hi as -> ->. split; [lia|done].
    + intros i. rewrite fmap_app, elem_of_app. simpl.
      by rewrite list_elem_of_singleton.
  - exists (rl, ri). split; [done|]. split; [done|]. simpl.
    intros i. split; [by left|]. intros [?| ->]; [done|].
    apply Hset. destruct (decide (idx ∈ ri)); [done|]. exfalso. tauto.
Qed.

Lemma for_each_collect_line (indices : list Z) (st : collected) :
  collected_inv lines st →
  (∀ i : Z, i ∈ indices → 0 ≤ i < len lines) →
  ∃ st' : collected,
    for_each (collect_line lines) indices st = Ok st'
    ∧ collected_inv lines st'
    ∧ (∀ i : Z, i ∈ st'.1.*1 ↔ i ∈ st.1.*1 ∨ i ∈ indices).
Proof.
  revert st. induction indices as [|idx indices IH]; intros st Hinv Hrange.
  - exists st. split; [done|]. split; [done|]. intros i. rewrite elem_of_nil. tauto.
  - destruct (collect_line_ok st idx Hinv) as (st1 & Hc & Hinv1 & Hin1).
    { apply Hrange. by left. }
    destruct (IH st1 Hinv1) as (st' & Hf & Hinv' & Hin').
    { intros i Hi. apply Hrange. by right. }
    exists st'. simpl. rewrite Hc. split; [exact Hf|]. split; [done|].
    intros i. rewrite Hin', Hin1, elem_of_cons. tauto.
Qed.

Lemma collect_window_ok (context_lines : Z) (st : collected) (err_idx : Z) :
  collected_inv lines st →
  ∃ st' : collected,
    collect_window lines context_lines st err_idx = Ok st'
    ∧ collected_inv lines st'
    ∧ (∀ i : Z, i ∈ st'.1.*1 ↔
         i ∈ st.1.*1
         ∨ (0 ≤ i < len lines ∧ in_window context_lines err_idx i = true)).
Proof.
  intros Hinv. unfold collect_window.
  destruct (for_each_collect_line
              (range (Z.max 0 (err_idx - context_lines))
                 (Z.min (len lines) (err_idx + context_lines + 1))) st Hinv)
    as (st' & Hf & Hinv' & Hin').
  { intros i. unfold range. rewrite elem_of_seqZ. unfold len. lia. }
  exists st'. split; [done|]. split; [done|].
  intros i. rewrite Hin'. unfold range, in_window.
  rewrite elem_of_seqZ, andb_true_iff, !Z.leb_le. unfold len.
  split; (intros [?|?]; [by left|right; lia]).
Qed.

Lemma for_each_collect_window (context_lines : Z) (error_indices : list Z)
    (st : collected) :
  collected_inv lines st →
  ∃ st' : collected,
    for_each (collect_window lines context_lines) error_indices st = Ok st'
    ∧ collected_inv lines st'
    ∧ (∀ i : Z, i ∈ st'.1.*1 ↔
         i ∈ st.1.*1
         ∨ (0 ≤ i < len lines
            ∧ existsb (fun e => in_window context_lines e i) error_indices = true)).
Proof.
  revert st. induction error_indices as [|e error_indices IH]; intros st Hinv.
  - exists st. split; [done|]. split; [done|]. intros i. simpl.
    split; [by left|]. by intros [?|[_ ?]].
  - destruct (collect_window_ok context_lines st e Hinv)
      as (st1 & Hc & Hinv1 & Hin1).
    destruct (IH st1 Hinv1) as (st' & Hf & Hinv' & Hin').
    exists st'. simpl. rewrite Hc. split; [exact Hf|]. split; [done|].
    intros i. rewrite Hin', Hin1, orb_true_iff. tauto.
Qed.

End collecting.

(** ** The error lines *)

Lemma find_error_indices_from (pre l : list string) (acc : list Z) :
  fold_left
    (fun error_indices '(i, line) =>
       if is_error_line line then error_indices ++ [i] else error_indices)
    (zip (seqZ (len pre) (len l)) l) acc
  = acc ++ filter (fun e => Is_true (error_at (pre ++ l) e)) (seqZ (len pre) (len l)).
Proof.
  revert pre acc. induction l as [|x l IH]; intros pre acc.
  - by rewrite app_nil_r.
  - assert (Hlen : len (x :: l) = Z.succ (len l)) by (unfold len; simpl; lia).
    rewrite Hlen, seqZ_cons by (unfold len; lia).
    rewrite Z.pred_succ. simpl.
    replace (Z.succ (len pre)) with (len (pre ++ [x])) by (rewrite len_app; unfold len; simpl; lia).
    rewrite IH, <- (app_assoc pre [x] l). simpl.
    assert (Hat : error_at (pre ++ x :: l) (len pre) = is_error_line x).
    { unfold error_at, len. rewrite Nat2Z.id, list_lookup_middle; done. }
    rewrite filter_cons. rewrite len_app. unfold len at 3. simpl.
    replace (Z.of_nat (length pre) + 1) with (Z.succ (len pre)) by (unfold len; lia).
    case_decide as Hd; rewrite Hat in Hd; destruct (is_error_line x); try done.
    by rewrite <- app_assoc.
Qed.

Lemma find_error_indices_spec (lines : list string) :
  find_error_indices lines = error_positions lines.
Proof.
  unfold find_error_indices, enumerate, error_positions.
  apply (find_error_indices_from [] lines []).
Qed.

(** ** Sorting the collected lines *)

Lemma sorted_pairs_fst (s : list (Z * string)) :
  Sorted tuple_le s → NoDup s.*1 → Sorted Z.lt s.*1.
Proof.
  induction 1 as [|a s Hs IH Hd]; intros Hnd; simpl; constructor.
  - apply IH. by apply NoDup_cons in Hnd as [_ ?].
  - destruct Hd as [|b s' Hab]; simpl; constructor.
    destruct Hab as [?|[Heq _]]; [done|].
    apply NoDup_cons in Hnd as [Hn _]. exfalso. apply Hn.
    simpl. rewrite Heq. by left.
Qed.

Lemma seqZ_sorted (m n : Z) : StronglySorted Z.lt (seqZ m n).
Proof.
  destruct (decide (n ≤ 0)) as [?|Hn]; [rewrite seqZ_nil by done; constructor|].
  rewrite <- (Z2Nat.id n) by lia. generalize (Z.to_nat n) as k. clear.
  intros k. revert m. induction k as [|k IH]; intros m.
  - rewrite seqZ_nil by done. constructor.
  - rewrite seqZ_cons by lia. rewrite Nat2Z.inj_succ, Z.pred_succ.
    constructor; [apply IH|]. apply Forall_seqZ. lia.
Qed.

Lemma StronglySorted_filter {A : Type} (R : relation A) (P : A → Prop)
    `{∀ x, Decision (P x)} (l : list A) :
  StronglySorted R l → StronglySorted R (filter P l).
Proof.
  induction 1 as [|x l Hl IH Hx]; [constructor|].
  rewrite filter_cons. case_decide; [|done].
  constructor; [done|]. apply Forall_forall. intros y [_ Hy]%list_elem_of_filter.
  by apply (proj1 (Forall_forall _ _) Hx).
Qed.

Lemma snd_by_index (lines : list string) (s : list (Z * string)) :
  (∀ (i : Z) (line : string), (i, line) ∈ s → lines !! Z.to_nat i = Some line) →
  snd <$> s = (fun i => lines !!! Z.to_nat i) <$> s.*1.
Proof.
  induction s as [|[i line] s IH]; intros Hs; [done|]. simpl. f_equal.
  - symmetry. apply list_lookup_total_correct, Hs. by left.
  - apply IH. intros j l Hj. apply Hs. by right.
Qed.

Lemma sorted_collected (lines : list string) (st : collected) (indices : list Z) :
  collected_inv lines st →
  StronglySorted Z.lt indices → NoDup indices →
  (∀ i : Z, i ∈ st.1.*1 ↔ i ∈ indices) →
  snd <$> merge_sort tuple_le st.1 = (fun i => lines !!! Z.to_nat i) <$> indices.
Proof.
  intros (Hnd & _ & Hline) Hsorted Hndi Hin.
  set (s := merge_sort tuple_le st.1).
  assert (Hperm : s ≡ₚ st.1) by apply merge_sort_Permutation.
  assert (Hs : Sorted tuple_le s) by (apply Sorted_merge_sort; apply _).
  assert (Hnds : NoDup s.*1) by (by rewrite Hperm).
  assert (Hfst : s.*1 = indices).
  { apply (StronglySorted_unique_strong Z.lt).
    - intros; lia.
    - apply Sorted_StronglySorted; [apply _|]. by apply sorted_pairs_fst.
    - done.
    - apply NoDup_Permutation; [done|done|]. intros i. by rewrite Hperm, Hin. }
  rewrite <- Hfst. apply snd_by_index.
  intros i line Hi. rewrite Hperm in Hi. by apply Hline.
Qed.

Lemma window_indices_sorted (lines : list string) (context_lines : Z) :
  StronglySorted Z.lt (window_indices lines context_lines)
  ∧ NoDup (window_indices lines context_lines).
Proof.
  unfold window_indices. split.
  - apply StronglySorted_filter, seqZ_sorted.
  - apply NoDup_filter, NoDup_seqZ.
Qed.

Lemma slice_last_n {A : Type} (l : list A) (max_lines : Z) :
  1 ≤ max_lines →
  (if max_lines <? len l then slice_from l (- max_lines) else l)
  = last_n (Z.to_nat max_lines) l.
Proof.
  intros Hm. unfold last_n, slice_from, len.
  destruct (Z.ltb_spec max_lines (Z.of_nat (length l))).
  - replace (- max_lines <? 0) with true by (symmetry; apply Z.ltb_lt; lia).
    f_equal. lia.
  - replace (length l - Z.to_nat max_lines)%nat with 0%nat by lia. done.
Qed.

(** ** The excerpt *)

Lemma collected_inv_empty (lines : list string) : collected_inv lines ([], ∅).
Proof.
  split; [constructor|]. split.
  - intros i. simpl. rewrite elem_of_nil. set_solver.
  - intros i line Hi. simpl in Hi. by apply elem_of_nil in Hi.
Qed.

Lemma excerpt_returns (lines : list string) (max_lines context_lines : Z) :
  ∃ ex : list string, excerpt lines max_lines context_lines = Ok ex.
Proof.
  unfold excerpt. destruct (find_error_indices lines) as [|e es]; [eauto|].
  destruct (for_each_collect_window lines context_lines (e :: es) ([], ∅)
              (collected_inv_empty lines)) as ([rl ri] & -> & _).
  unfold mbind, result_bind. destruct (_ <? _); eauto.
Qed.

Lemma excerpt_spec (lines : list string) (max_lines context_lines : Z) :
  1 ≤ max_lines →
  excerpt lines max_lines context_lines
  = Ok (spec_excerpt lines max_lines context_lines).
Proof.
  intros Hm. unfold excerpt, spec_excerpt. rewrite find_error_indices_spec.
  destruct (error_positions lines) as [|e es] eqn:He.
  - f_equal. by apply slice_last_n.
  - destruct (for_each_collect_window lines context_lines (e :: es) ([], ∅)
                (collected_inv_empty lines)) as ([rl ri] & -> & Hinv & Hin).
    unfold mbind, result_bind.
    destruct (window_indices_sorted lines context_lines) as [Hs Hnd].
    assert (Hsnd : snd <$> merge_sort tuple_le rl = window_lines lines context_lines).
    { apply (sorted_collected lines (rl, ri)); [done|done|done|].
      intros i. rewrite Hin. simpl. rewrite elem_of_nil.
      unfold window_indices, near_error. rewrite list_elem_of_filter, elem_of_seqZ, He.
      rewrite Is_true_true. unfold len. simpl existsb.
      split; [intros [[]|[? ?]]|intros [? ?]; right]; (split; [done || lia|done || lia]). }
    rewrite <- Hsnd, <- (slice_last_n (snd <$> merge_sort tuple_le rl)) by done.
    unfold len. rewrite length_fmap.
    destruct (_ <? _); [|done].
    unfold slice_from. by rewrite fmap_drop, length_fmap.
Qed.






Lemma last_n_all {A : Type} (n : nat) (l : list A) :
  (length l ≤ n)%nat → last_n n l = l.
Proof. intros Hn. unfold last_n. by replace (length l - n)%nat with 0%nat by lia. Qed.

(** ** The extractor *)

Lemma find_is_truthy (test : string → bool) (names : list string) (name : string) :
  (∀ n, test n = true → truthy_str n = true) →
  List.find test names = Some name → truthy_str name = true.
Proof. intros Ht [_ H]%find_some. by apply Ht. Qed.

Lemma or_else_is_truthy (test1 test2 : string → bool) (names : list string)
    (name : string) :
  (∀ n, test1 n = true → truthy_str n = true) →
  (∀ n, test2 n = true → truthy_str n = true) →
  or_else (List.find test1 names) (List.find test2 names) = Some name →
  truthy_str name = true.
Proof.
  intros H1 H2. destruct (List.find test1 names) as [n|] eqn:E; simpl; intros H.
  - injection H as <-. exact (find_is_truthy test1 names _ H1 E).
  - exact (find_is_truthy test2 names _ H2 H).
Qed.

Lemma locate_log_file_truthy (names : list string) (job : string)
    (step : option string) (name : string) :
  locate_log_file names job step = Some name → truthy_str name = true.
Proof.
  rewrite locate_log_file_cascade. unfold locate_cascade.
  assert (Hjob :
    (if truthy_str job
     then or_else (List.find (job_exact_test job) names)
            (List.find (job_partial_test job) names)
     else None) = Some name → truthy_str name = true).
  { destruct (truthy_str job); [|done].
    apply or_else_is_truthy; [apply job_exact_test_truthy|apply job_partial_test_truthy]. }
  destruct step as [step|]; [destruct (truthy_str step)|]; [|exact Hjob|exact Hjob].
  destruct (or_else (List.find (step_exact_test step) names) _) as [n|] eqn:E;
    [|exact Hjob].
  simpl. intros [= <-].
  eapply or_else_is_truthy;
    [apply step_exact_test_truthy|apply step_partial_test_truthy|exact E].
Qed.

Lemma extract_located (z : ZipFile.t) (job : string) (step : option string)
    (name : string) (max_lines context_lines : Z) :
  locate_log_file (ZipFile.namelist z) job step = Some name →
  extract_body (Ok z) job step max_lines context_lines
  = content ← ZipFile.read z name;
    Some <$> excerpt (splitlines (decode_utf8_replace content)) max_lines context_lines.
Proof.
  intros Hl. unfold extract_body. unfold mbind at 1, result_bind at 1.
  rewrite Hl. by rewrite (locate_log_file_truthy _ _ _ _ Hl).
Qed.








(** ** Totality of the extractor *)

Lemma decode_invalid_start (b : byte) (bs : bytes) :
  (128 ≤ Byte.to_N b < 194)%N ∨ (245 ≤ Byte.to_N b)%N →
  decode_utf8_replace (b :: bs) = replacement +:+ decode_utf8_replace bs.
Proof.
  intros Hb. simpl decode_utf8_replace.
  repeat match goal with
         | |- context [(?x <? ?y)%N] => destruct (N.ltb_spec x y); try lia
         end;
    reflexivity.
Qed.

Lemma decode_ascii (b : byte) (bs : bytes) :
  (Byte.to_N b < 128)%N →
  decode_utf8_replace (b :: bs) = String (chr b) (decode_utf8_replace bs).
Proof.
  intros Hb. simpl decode_utf8_replace.
  by destruct (N.ltb_spec (Byte.to_N b) 128); [|lia].
Qed.

(** C9. The extractor returns for every archive, job name, step name,
    budget and context: a blob that [zipfile] refuses, an archive without a
    matching entry and an entry that cannot be read all yield nothing, and
    an entry that is read yields an excerpt whatever its bytes are, since
    decoding replaces what is not UTF-8 (a byte that cannot start a
    sequence becomes U+FFFD) and the collecting loops never index out of
    range. *)
Theorem extract_never_raises (logs_zip : blob) (job : string) (step : option string)
    (max_lines context_lines : Z) :
  (∀ e : exn,
     logs_zip = Raise e →
     extract_failing_step_logs logs_zip job step max_lines context_lines = None)
  ∧ (∀ z : ZipFile.t,
       logs_zip = Ok z →
       locate_log_file (ZipFile.namelist z) job step = None →
       extract_failing_step_logs logs_zip job step max_lines context_lines = None)
  ∧ (∀ (z : ZipFile.t) (name : string) (e : exn),
       logs_zip = Ok z →
       locate_log_file (ZipFile.namelist z) job step = Some name →
       ZipFile.read z name = Raise e →
       extract_failing_step_logs logs_zip job step max_lines context_lines = None)
  ∧ (∀ (z : ZipFile.t) (name : string) (content : bytes),
       logs_zip = Ok z →
       locate_log_file (ZipFile.namelist z) job step = Some name →
       ZipFile.read z name = Ok content →
       ∃ ex : list string,
         excerpt (splitlines (decode_utf8_replace content)) max_lines context_lines
         = Ok ex
         ∧ extract_failing_step_logs logs_zip job step max_lines context_lines
           = Some ex)
  ∧ (∀ (b : byte) (bs : bytes),
       (128 ≤ Byte.to_N b < 194)%N ∨ (245 ≤ Byte.to_N b)%N →
       decode_utf8_replace (b :: bs) = replacement +:+ decode_utf8_replace bs).
Proof.
  split; [|split; [|split; [|split]]].
  - by intros e ->.
  - intros z -> Hnone. unfold extract_failing_step_logs, extract_body.
    unfold mbind, result_bind. by rewrite Hnone.
  - intros z name e -> Hl Hr. unfold extract_failing_step_logs.
    by rewrite (extract_located _ _ _ _ _ _ Hl), Hr.
  - intros z name content -> Hl Hr.
    destruct (excerpt_returns (splitlines (decode_utf8_replace content))
                max_lines context_lines) as [ex Hex].
    exists ex. split; [done|]. unfold extract_failing_step_logs.
    rewrite (extract_located _ _ _ _ _ _ Hl), Hr.
    unfold mbind, result_bind. by rewrite Hex.
  - apply decode_invalid_start.
Qed.

(** A refused blob, a missing entry, an unreadable entry, and an entry with
    a byte that is not UTF-8 under a negative budget and context. *)
Lemma extract_never_raises_witness :
  extract_failing_step_logs (Raise BadZipFile) "build" (Some "Run tests") 50 5 = None
  ∧ extract_failing_step_logs (Ok sample_logs) "deploy" None 50 5 = None
  ∧ extract_failing_step_logs
      (Ok (ZipFile.mk ["1_build.txt"] (fun _ => Raise BadZipFile))) "build" None 50 5
    = None
  ∧ (∃ ex : list string,
       extract_failing_step_logs
         (Ok (ZipFile.mk ["1_build.txt"] (fun _ => Ok [x68; xff; x69]))) "build" None
         (-3) (-1)
       = Some ex)
  ∧ decode_utf8_replace [x68; xff; x69] = "h" +:+ replacement +:+ "i".
Proof.
  split; [|split; [|split; [|split]]].
  - by apply (proj1 (extract_never_raises (Raise BadZipFile) "build"
                       (Some "Run tests") 50 5) BadZipFile).
  - by apply (proj1 (proj2 (extract_never_raises (Ok sample_logs) "deploy" None 50 5))
                sample_logs).
  - by apply (proj1 (proj2 (proj2 (extract_never_raises _ "build" None 50 5)))
                (ZipFile.mk ["1_build.txt"] (fun _ => Raise BadZipFile))
                "1_build.txt" BadZipFile).
  - destruct (proj1 (proj2 (proj2 (proj2
                (extract_never_raises
                   (Ok (ZipFile.mk ["1_build.txt"] (fun _ => Ok [x68; xff; x69])))
                   "build" None (-3) (-1)))))
                (ZipFile.mk ["1_build.txt"] (fun _ => Ok [x68; xff; x69]))
                "1_build.txt" [x68; xff; x69] eq_refl eq_refl eq_refl)
      as (ex & _ & Hex).
    by exists ex.
  - rewrite decode_ascii by (by vm_compute).
    rewrite (proj2 (proj2 (proj2 (proj2
               (extract_never_raises (Raise BadZipFile) "" None 0 0)))) xff [x69])
      by (right; by vm_compute).
    reflexivity.
Defined.

(** * Further properties of the code *)

(** ** The failing jobs *)

Lemma fold_left_collect {A : Type} (p : A → bool) (l acc : list A) :
  fold_left (fun acc x => if p x then acc ++ [x] else acc) l acc
  = acc ++ filter (fun x => Is_true (p x)) l.
Proof.
  revert acc. induction l as [|x l IH]; intros acc; simpl.
  - by rewrite app_nil_r.
  - rewrite IH. destruct (p x) eqn:E.
    + rewrite filter_cons_True by (by rewrite E). by rewrite <- app_assoc.
    + rewrite filter_cons_False by (rewrite E; by intros []). done.
Qed.

Lemma pick_failing_jobs_filter (jobs : list JobMeta.t) :
  pick_failing_jobs jobs = filter (fun j => Is_true (job_failing j)) jobs.
Proof. unfold pick_failing_jobs. by rewrite (fold_left_collect job_failing). Qed.

(** X1. [pick_failing_jobs] keeps, in their order, exactly the jobs whose
    conclusion is failure, failed or cancelled in any letter case; a job
    without conclusion is never kept; the selection of a concatenation is the
    concatenation of the selections, and selecting twice changes nothing. *)
Theorem pick_failing_jobs_spec (jobs jobs' : list JobMeta.t) :
  pick_failing_jobs jobs `sublist_of` jobs
  ∧ (∀ j : JobMeta.t,
       j ∈ pick_failing_jobs jobs
       ↔ j ∈ jobs
         ∧ ∃ c : string,
             JobMeta.conclusion j = Some c
             ∧ (lower c = "failure" ∨ lower c = "failed" ∨ lower c = "cancelled"))
  ∧ pick_failing_jobs (jobs ++ jobs') = pick_failing_jobs jobs ++ pick_failing_jobs jobs'
  ∧ pick_failing_jobs (pick_failing_jobs jobs) = pick_failing_jobs jobs.
Proof.
  rewrite !pick_failing_jobs_filter. split; [|split; [|split]].
  - apply sublist_filter.
  - intros j. rewrite list_elem_of_filter. unfold job_failing.
    rewrite Is_true_true, str_in_elem_of. unfold failing_conclusions.
    rewrite !elem_of_cons, elem_of_nil. split.
    + intros [Hc Hj]. split; [done|].
      destruct (JobMeta.conclusion j) as [c|]; simpl in Hc.
      * exists c. split; [done|]. tauto.
      * exfalso. destruct Hc as [Hc|[Hc|[Hc|[]]]]; discriminate Hc.
    + intros [Hj (c & Hc & Hl)]. split; [|done]. rewrite Hc. simpl. tauto.
  - apply filter_app.
  - rewrite list_filter_filter.
    apply list_filter_iff. tauto.
Qed.

(** ** The median lies within the sample *)

Lemma median_ms_between_elements (values : list Z) :
  values ≠ [] →
  ∃ a b : Z, a ∈ values ∧ b ∈ values ∧ a ≤ median_ms values ≤ b.
Proof.
  intros Hne.
  assert (Hperm : sorted values ≡ₚ values) by apply merge_sort_Permutation.
  assert (Hlen : length (sorted values) = length values) by by rewrite Hperm.
  assert (Hpos : (0 < length values)%nat) by (destruct values; [done|simpl; lia]).
  assert (Hin : ∀ i : nat, (i < length values)%nat → sorted values !!! i ∈ values).
  { intros i Hi.
    assert (Hs : sorted values !!! i ∈ sorted values)
      by (apply list_elem_of_lookup_total_2; lia).
    revert Hs. generalize (sorted values !!! i). intros x Hx. by rewrite <- Hperm. }
  assert (Hmed : median_ms values =
    if len (sorted values) mod 2 =? 1
    then sorted values !!! Z.to_nat (len (sorted values) / 2)
    else (sorted values !!! Z.to_nat (len (sorted values) / 2 - 1)
          + sorted values !!! Z.to_nat (len (sorted values) / 2)) / 2).
  { unfold median_ms. by destruct values. }
  rewrite Hmed. unfold len. rewrite Hlen.
  set (n := Z.of_nat (length values)).
  assert (Hn : 0 < n) by (unfold n; lia).
  assert (Hhalf : (Z.to_nat (n / 2) < length values)%nat).
  { assert (n / 2 < n) by (apply Z.div_lt; lia).
    assert (0 ≤ n / 2) by (apply Z.div_pos; lia). unfold n in *. lia. }
  destruct (n mod 2 =? 1) eqn:Hodd.
  - exists (sorted values !!! Z.to_nat (n / 2)), (sorted values !!! Z.to_nat (n / 2)).
    split; [by apply Hin|]. split; [by apply Hin|]. lia.
  - assert (Hprev : (Z.to_nat (n / 2 - 1) < length values)%nat) by lia.
    pose proof (Hin _ Hhalf) as Hb. pose proof (Hin _ Hprev) as Ha.
    set (a := sorted values !!! Z.to_nat (n / 2 - 1)) in *.
    set (b := sorted values !!! Z.to_nat (n / 2)) in *.
    assert (Hdiv : Z.min a b ≤ (a + b) / 2 ≤ Z.max a b).
    { split.
      - apply Z.div_le_lower_bound; lia.
      - apply Z.div_le_upper_bound; lia. }
    destruct (Z.le_ge_cases a b).
    + exists a, b. split; [done|]. split; [done|]. lia.
    + exists b, a. split; [done|]. split; [done|]. lia.
Qed.

Lemma median_ms_bounds (values : list Z) (lo hi : Z) :
  values ≠ [] → (∀ x : Z, x ∈ values → lo ≤ x ≤ hi) → lo ≤ median_ms values ≤ hi.
Proof.
  intros Hne Hall. destruct (median_ms_between_elements values Hne) as (a & b & Ha & Hb & Hm).
  pose proof (Hall a Ha). pose proof (Hall b Hb). lia.
Qed.

(** X2. For a sample that is not empty the median lies between two of its
    values, hence within any bounds that hold for the whole sample; a sample
    whose values are all the same number has that number as its median. *)
Theorem median_ms_within_sample (values : list Z) :
  values ≠ [] →
  (∃ a b : Z, a ∈ values ∧ b ∈ values ∧ a ≤ median_ms values ≤ b)
  ∧ (∀ lo hi : Z, (∀ x : Z, x ∈ values → lo ≤ x ≤ hi) → lo ≤ median_ms values ≤ hi)
  ∧ (∀ v : Z, (∀ x : Z, x ∈ values → x = v) → median_ms values = v).
Proof.
  intros Hne. split; [|split].
  - by apply median_ms_between_elements.
  - intros lo hi. by apply median_ms_bounds.
  - intros v Hall. assert (v ≤ median_ms values ≤ v); [|lia].
    apply median_ms_bounds; [done|]. intros x Hx. rewrite (Hall x Hx). lia.
Qed.

Lemma median_ms_within_sample_witness :
  [700; 300; 500; 900] ≠ []
  ∧ 300 ≤ median_ms [700; 300; 500; 900] ≤ 900.
Proof.
  split; [done|].
  apply (proj1 (proj2 (median_ms_within_sample [700; 300; 500; 900] ltac:(done)))).
  intros x Hx. rewrite !elem_of_cons, elem_of_nil in Hx. lia.
Defined.

(** ** [analyze]: what it returns and what it raises *)










(** ** The cap of [gen_suspects] *)

(** X6. The cap of three cuts only the last two rules: the Dockerfile
    suspect is returned exactly when its rule fires and the three rules
    before it did not all fire, and the manual-dispatch suspect exactly when
    the run was dispatched and fewer than three of the four rules before it
    fired. *)
Theorem gen_suspects_cut_by_cap (run : RunMeta.t) (jobs : list JobMeta.t)
    (cmp : option CompareMeta.t) (baseline : option Z) :
  (suspect_dockerfile ∈ gen_suspects run jobs cmp baseline
   ↔ diff_rule touches_dockerfile cmp = true
     ∧ Z.b2z (duration_rule run baseline) + Z.b2z (diff_rule touches_lockfile cmp)
       + Z.b2z (diff_rule touches_workflow cmp) < 3)
  ∧ (suspect_dispatch ∈ gen_suspects run jobs cmp baseline
     ↔ is_dispatch run = true
       ∧ Z.b2z (duration_rule run baseline) + Z.b2z (diff_rule touches_lockfile cmp)
         + Z.b2z (diff_rule touches_workflow cmp)
         + Z.b2z (diff_rule touches_dockerfile cmp) < 3).
Proof.
  rewrite gen_suspects_fired. unfold suspect_rules, fired.
  destruct (duration_rule run baseline), (diff_rule touches_lockfile cmp),
    (diff_rule touches_workflow cmp), (diff_rule touches_dockerfile cmp),
    (is_dispatch run);
    rewrite <- !str_in_elem_of; vm_compute;
    (split; split; first [done | by intros [? ?] | by split]).
Qed.

(** ** The excerpt: its length, its lines, and the last matching line *)
















(** ** [human_ms] *)





(** ** The error lines of the summary and the highlighted lines *)

Lemma extract_error_lines_filter (log_lines : list string) :
  extract_error_lines log_lines
  = filter (fun line => Is_true (any_pattern_in ai_error_patterns line)) log_lines.
Proof.
  unfold extract_error_lines.
  by rewrite (fold_left_collect (any_pattern_in ai_error_patterns)).
Qed.

Lemma startswith_prefix (s p q : string) :
  startswith s (p +:+ q) = true → startswith s p = true.
Proof.
  revert s. induction p as [|c p IH]; intros s; [by destruct s|].
  destruct s as [|d s]; simpl; [done|].
  destruct (Ascii.eqb c d); [apply IH|done].
Qed.

Lemma contains_prefix (s p q : string) :
  contains s (p +:+ q) = true → contains s p = true.
Proof.
  induction s as [|c s IH].
  - cbn [contains]. rewrite !orb_false_r. apply startswith_prefix.
  - cbn [contains]. rewrite !orb_true_iff.
    intros [H|H]; [left; by eapply startswith_prefix|right; by apply IH].
Qed.

Lemma highlighted_is_error_line (line : string) :
  is_highlighted line = true → any_pattern_in ai_error_patterns line = true.
Proof.
  unfold is_highlighted, any_pattern_in, render_error_patterns, ai_error_patterns.
  cbn [existsb]. rewrite !orb_true_iff.
  intros H. repeat (destruct H as [H|H]; [tauto|]).
  destruct H as [H|[H|H]]; [|tauto|done].
  apply (contains_prefix line "assertion" " failed") in H. tauto.
Qed.

(** X9. [extract_error_lines] keeps, in their order, exactly the lines that
    hold one of its fifteen patterns with the same letter case; the error
    lines of a concatenation are the concatenation of the error lines, and
    extracting twice changes nothing.  Every line of the log that
    [render_report] shows highlighted is one of these error lines. *)
Theorem extract_error_lines_spec (log_lines more_lines : list string) :
  extract_error_lines log_lines `sublist_of` log_lines
  ∧ (∀ line : string,
       line ∈ extract_error_lines log_lines
       ↔ line ∈ log_lines
         ∧ ∃ pattern : string,
             pattern ∈ ai_error_patterns ∧ contains line pattern = true)
  ∧ extract_error_lines (log_lines ++ more_lines)
    = extract_error_lines log_lines ++ extract_error_lines more_lines
  ∧ extract_error_lines (extract_error_lines log_lines) = extract_error_lines log_lines
  ∧ (∀ line : string,
       line ∈ log_lines → is_highlighted line = true →
       line ∈ extract_error_lines log_lines).
Proof.
  rewrite !extract_error_lines_filter. split; [|split; [|split; [|split]]].
  - apply sublist_filter.
  - intros line. rewrite list_elem_of_filter, Is_true_true. unfold any_pattern_in.
    rewrite existsb_exists. split.
    + intros [(p & Hp & Hc) Hl]. split; [done|]. exists p.
      split; [by apply list_elem_of_In|done].
    + intros [Hl (p & Hp & Hc)]. split; [|done]. exists p.
      split; [by apply list_elem_of_In|done].
  - apply filter_app.
  - rewrite list_filter_filter. apply list_filter_iff. tauto.
  - intros line Hl Hh. apply list_elem_of_filter. split; [|done].
    apply Is_true_true. by apply highlighted_is_error_line.
Qed.

(** ** [str] and [int] *)

Lemma str_app_cons (c : ascii) (a b : string) : String c a +:+ b = String c (a +:+ b).
Proof. done. Qed.

Lemma str_app_assoc (a b c : string) : (a +:+ b) +:+ c = a +:+ (b +:+ c).
Proof. induction a as [|x a IH]; [done|]. by rewrite !str_app_cons, IH. Qed.

Lemma pretty_N_go_app (x : N) (s : string) :
  pretty_N_go x s = pretty_N_go x "" +:+ s.
Proof.
  revert s. induction (N.lt_wf_0 x) as [x _ IH]; intros s.
  assert (x = 0 ∨ 0 < x)%N as [->|Hx] by lia; [done|].
  rewrite !(pretty_N_go_step x) by done.
  rewrite (IH (x `div` 10)%N) by (by apply N.div_lt).
  rewrite (IH (x `div` 10)%N ltac:(by apply N.div_lt) (String _ "")).
  by rewrite str_app_assoc.
Qed.

Lemma decimal_value_from_snoc (acc : Z) (s : string) (c : ascii) :
  decimal_value_from acc (s +:+ String c "")
  = 10 * decimal_value_from acc s + digit_value c.
Proof.
  revert acc. induction s as [|d s IH]; intros acc; [done|].
  rewrite str_app_cons. cbn [decimal_value_from]. apply IH.
Qed.

Lemma forallb_str_app (p : ascii → bool) (s t : string) :
  forallb_str p (s +:+ t) = forallb_str p s && forallb_str p t.
Proof.
  induction s as [|c s IH]; [done|].
  rewrite str_app_cons. cbn [forallb_str]. by rewrite IH, andb_assoc.
Qed.

Lemma pretty_N_char_digit (x : N) :
  (x < 10)%N →
  is_digit (pretty_N_char x) = true ∧ digit_value (pretty_N_char x) = Z.of_N x.
Proof.
  intros Hx.
  assert (x = 0 ∨ x = 1 ∨ x = 2 ∨ x = 3 ∨ x = 4 ∨ x = 5 ∨ x = 6 ∨ x = 7 ∨ x = 8 ∨ x = 9)%N
    as Hc by lia.
  repeat (destruct Hc as [->|Hc]; [by vm_compute|]). subst x. by vm_compute.
Qed.

Lemma pretty_N_go_decimal (x : N) :
  forallb_str is_digit (pretty_N_go x "") = true
  ∧ decimal_value (pretty_N_go x "") = Z.of_N x
  ∧ ((0 < x)%N → pretty_N_go x "" ≠ "").
Proof.
  induction (N.lt_wf_0 x) as [x _ IH].
  assert (x = 0 ∨ 0 < x)%N as [->|Hx] by lia; [split; [done|split; [done|lia]]|].
  rewrite pretty_N_go_step, pretty_N_go_app by done.
  destruct (IH (x `div` 10)%N ltac:(by apply N.div_lt)) as (Hd & Hv & _).
  destruct (pretty_N_char_digit (x `mod` 10)%N ltac:(by apply N.mod_lt)) as [Hc Hcv].
  split; [|split].
  - rewrite forallb_str_app, Hd. cbn. by rewrite Hc.
  - unfold decimal_value in *. rewrite decimal_value_from_snoc, Hv, Hcv.
    rewrite (N.div_mod x 10) at 3 by done. lia.
  - intros _. by destruct (pretty_N_go (x `div` 10) "").
Qed.

Lemma str_int_positive (p : positive) :
  is_decimal (str_int (Z.pos p)) = true ∧ decimal_value (str_int (Z.pos p)) = Z.pos p.
Proof.
  assert (Heq : str_int (Z.pos p) = pretty_N_go (N.pos p) "") by done.
  rewrite Heq.
  destruct (pretty_N_go_decimal (N.pos p)) as (Hd & Hv & Hne).
  split; [|by rewrite Hv].
  unfold is_decimal. rewrite Hd, andb_true_r. unfold truthy_str.
  apply negb_true_iff, String.eqb_neq. apply Hne. lia.
Qed.

Lemma py_int_negative (s : string) :
  is_decimal s = true → py_int (String "-" s) = Ok (- decimal_value s).
Proof.
  unfold is_decimal, py_int, decimal_value, truthy_str.
  intros [Hne Hd]%andb_true_iff.
  apply negb_true_iff, String.eqb_neq in Hne.
  change (lstrip is_space (String "-" s)) with (String "-" s).
  cbn [rstrip]. rewrite (rstrip_digits s Hd).
  destruct s as [|c s]; [done|].
  change (is_char "-" "-") with true. cbv iota.
  rewrite (digits_value_decimal (String c s) 0 false Hd) by (by left).
  done.
Qed.

(** [int(str(n))] is [n]. *)
Lemma py_int_str_int (n : Z) : py_int (str_int n) = Ok n.
Proof.
  destruct n as [|p|p].
  - by vm_compute.
  - destruct (str_int_positive p) as [Hd Hv]. by rewrite py_int_decimal, Hv.
  - destruct (str_int_positive p) as [Hd Hv].
    change (str_int (Z.neg p)) with (String "-" (str_int (Z.pos p))).
    rewrite py_int_negative, Hv by done. done.
Qed.

(** ** [str.split] *)

Lemma split_parts_no_sep (sep : ascii) (s : string) :
  Forall (no_sep sep) (split sep s).
Proof.
  induction s as [|c s IH]; [by repeat constructor|]. cbn [split].
  destruct (Ascii.eqb c sep) eqn:Hc; [by constructor|].
  destruct (split sep s) as [|h t]; [by repeat constructor; unfold no_sep; cbn; rewrite Hc|].
  inversion IH as [|? ? Hh Ht]; subst. constructor; [|done].
  unfold no_sep in *. cbn. by rewrite Hc, Hh.
Qed.

Lemma split_app_sep (sep : ascii) (a b : string) :
  no_sep sep a → split sep (a +:+ String sep b) = a :: split sep b.
Proof.
  unfold no_sep. induction a as [|c a IH]; intros Ha.
  - change ("" +:+ String sep b) with (String sep b). cbn [split].
    by rewrite Ascii.eqb_refl.
  - cbn in Ha. apply andb_true_iff in Ha as [Hc Ha]. apply negb_true_iff in Hc.
    rewrite str_app_cons. cbn [split]. rewrite Hc, (IH Ha). done.
Qed.

Lemma split_no_sep (sep : ascii) (a : string) : no_sep sep a → split sep a = [a].
Proof.
  unfold no_sep. induction a as [|c a IH]; intros Ha; [done|].
  cbn in Ha. apply andb_true_iff in Ha as [Hc Ha]. apply negb_true_iff in Hc.
  cbn. by rewrite Hc, (IH Ha).
Qed.

Lemma split_repo_join (owner repo : string) :
  no_sep "/" owner → no_sep "/" repo →
  split_repo (owner +:+ "/" +:+ repo) = Ok (owner, repo).
Proof.
  intros Ho Hr. unfold split_repo.
  change ("/" +:+ repo) with (String "/" repo).
  by rewrite (split_app_sep "/" owner repo Ho), (split_no_sep "/" repo Hr).
Qed.

Lemma path_parts_no_sep (path part : string) :
  In part (path_parts path) → no_sep "/" part.
Proof.
  unfold path_parts. intros [Hin _]%filter_In.
  pose proof (split_parts_no_sep "/" path) as Hall.
  rewrite Forall_forall in Hall. apply Hall. by apply list_elem_of_In.
Qed.

(** ** [GitHubProvider] *)

(** X10. A run that [GitHubProvider.get_run] returns carries what the later
    calls need to reach the same run: its [repo] splits at the slash into
    the owner and the repository of the URL, and its [id] reads back as the
    number the API gave.  So [list_run_jobs] and [download_logs_zip] never
    fail on it before the request, and they ask the client for that owner,
    repository and run. *)
Theorem provider_calls_agree `{GitHubClient} (run_url : string) (run : RunMeta.t) :
  provider_get_run run_url = Done run →
  ∃ (parsed : ParsedRunURL.t) (gh_run : GHRun.t),
    parse_github_run_url run_url = Ok parsed
    ∧ gh_get_run (ParsedRunURL.owner parsed) (ParsedRunURL.repo parsed)
        (ParsedRunURL.run_id parsed)
      = Done gh_run
    ∧ split_repo (RunMeta.repo run)
      = Ok (ParsedRunURL.owner parsed, ParsedRunURL.repo parsed)
    ∧ py_int (RunMeta.id run) = Ok (GHRun.id gh_run)
    ∧ provider_list_run_jobs run
      = match gh_list_jobs (ParsedRunURL.owner parsed) (ParsedRunURL.repo parsed)
                (GHRun.id gh_run) with
        | Done jobs => Done (job_meta_of <$> jobs)
        | Fail e => Fail e
        end
    ∧ provider_download_logs_zip run
      = gh_logs_zip (ParsedRunURL.owner parsed) (ParsedRunURL.repo parsed)
          (GHRun.id gh_run).
Proof.
  unfold provider_get_run. unfold mbind at 1, gh_result_bind at 1.
  destruct (parse_github_run_url run_url) as [parsed|] eqn:Hp; [|done].
  cbn [lift_result]. unfold mbind, gh_result_bind.
  destruct (gh_get_run _ _ _) as [gh_run|] eqn:Hg; [|done].
  intros [= <-]. exists parsed, gh_run. split; [done|]. split; [done|].
  destruct (parse_github_run_url_inv _ _ Hp) as (u & rid & rest & _ & _ & Hparts & _).
  assert (Hsplit : split_repo (ParsedRunURL.owner parsed +:+ "/" +:+ ParsedRunURL.repo parsed)
                   = Ok (ParsedRunURL.owner parsed, ParsedRunURL.repo parsed)).
  { apply split_repo_join; apply (path_parts_no_sep (ParseResult.path u));
      rewrite Hparts; simpl; tauto. }
  split; [exact Hsplit|]. split; [apply py_int_str_int|].
  unfold provider_list_run_jobs, provider_download_logs_zip, mbind, gh_result_bind.
  cbn [RunMeta.repo RunMeta.id]. rewrite Hsplit, py_int_str_int. done.
Qed.

Lemma provider_calls_agree_witness :
  ∃ run : RunMeta.t,
    provider_get_run (H := sample_client sample_gh_run [sample_gh_job])
      "https://github.com/octo/demo/actions/runs/42/job/7?pr=1"
    = Done run
    ∧ provider_list_run_jobs (H := sample_client sample_gh_run [sample_gh_job]) run
      = Done [job_meta_of sample_gh_job].
Proof.
  eexists. split; [by vm_compute|].
  destruct (provider_calls_agree (H := sample_client sample_gh_run [sample_gh_job])
              "https://github.com/octo/demo/actions/runs/42/job/7?pr=1" _ eq_refl)
    as (parsed & gh_run & Hp & Hg & _ & _ & Hjobs & _).
  etrans; [exact Hjobs|].
  injection Hp as <-. injection Hg as <-. by vm_compute.
Defined.

(** ** The ETag cache of [GitHubClient._get] *)

Lemma request_headers_no_cache (etags : gmap string string) (url : string) :
  request_headers false etags url = ∅.
Proof. done. Qed.

Lemma request_headers_stored (etags : gmap string string) (url et : string) :
  etags !! url = Some et →
  request_headers true etags url = {[ "If-None-Match" := et ]}.
Proof.
  intros Hl. unfold request_headers.
  rewrite bool_decide_eq_true_2 by (by exists et). cbn [andb].
  by rewrite (lookup_total_correct _ _ _ Hl).
Qed.

Lemma request_headers_other (use_cache : bool) (etags : gmap string string)
    (url url' et : string) :
  url' ≠ url →
  request_headers use_cache (<[ url := et ]> etags) url'
  = request_headers use_cache etags url'.
Proof.
  intros Hne. unfold request_headers.
  rewrite lookup_total_insert_ne by done. by rewrite lookup_insert_ne by done.
Qed.

(** X11. [_get] raises the authentication error for status 401 and the API
    error for any other status from 400 on, and leaves the stored tags as
    they were; a response below 400, a 304 among them, is returned as it is.
    When such a response carries a non-empty [ETag], a client that caches
    sends it as [If-None-Match] with the next request for the same URL,
    whatever the parameters of either request; the headers for other URLs do
    not change, and a client that does not cache never sends the header. *)
Theorem get_etag_cache (use_cache : bool) (get : http_get)
    (etags : gmap string string) (url : string) (params : option dict) :
  (∀ (e : gh_error) (etags' : gmap string string),
     get_ use_cache get etags url params = (Fail e, etags') → etags' = etags)
  ∧ (∀ r : Response.t,
       get url (default ∅ params) (request_headers use_cache etags url) = Done r →
       (Response.status_code r = 401 →
        (get_ use_cache get etags url params).1 = Fail GitHubAuthError)
       ∧ (400 ≤ Response.status_code r → Response.status_code r ≠ 401 →
          (get_ use_cache get etags url params).1 = Fail GitHubAPIError)
       ∧ (Response.status_code r < 400 →
          (get_ use_cache get etags url params).1 = Done r))
  ∧ (∀ (r : Response.t) (etags' : gmap string string),
       get_ use_cache get etags url params = (Done r, etags') →
       get url (default ∅ params) (request_headers use_cache etags url) = Done r
       ∧ Response.status_code r < 400
       ∧ (∀ et : string,
            Response.etag r = Some et → et ≠ "" →
            request_headers true etags' url = {[ "If-None-Match" := et ]})
       ∧ (truthy_opt_str (Response.etag r) = false → etags' = etags)
       ∧ (∀ url' : string,
            url' ≠ url →
            request_headers use_cache etags' url' = request_headers use_cache etags url'))
  ∧ (∀ (tags : gmap string string) (u : string), request_headers false tags u = ∅).
Proof.
  split; [|split; [|split]].
  - intros e etags'. unfold get_.
    destruct (get url _ _) as [r|e0]; [|by intros [= _ <-]].
    destruct (Response.status_code r =? 401); [by intros [= _ <-]|].
    destruct (_ && _); [by intros [= _ <-]|]. done.
  - intros r Hr. unfold get_. rewrite Hr. split; [|split].
    + intros ->. done.
    + intros Hge Hne. rewrite (proj2 (Z.eqb_neq _ _) Hne).
      rewrite (proj2 (Z.leb_le _ _) Hge).
      assert (Response.status_code r ≠ 304) as H304 by lia.
      by rewrite (proj2 (Z.eqb_neq _ _) H304).
    + intros Hlt.
      assert (Response.status_code r ≠ 401) as H401 by lia.
      rewrite (proj2 (Z.eqb_neq _ _) H401).
      assert (¬ 400 ≤ Response.status_code r) as Hge by lia.
      by rewrite (proj2 (Z.leb_nle _ _) Hge).
  - intros r etags'. unfold get_.
    destruct (get url _ _) as [r0|e0] eqn:Hr; [|done].
    destruct (Response.status_code r0 =? 401) eqn:H401; [done|].
    destruct (400 <=? Response.status_code r0) eqn:Hge.
    { destruct (Response.status_code r0 =? 304) eqn:H304; [|done].
      apply Z.eqb_eq in H304. apply Z.leb_le in Hge. lia. }
    cbn [andb]. intros [= <- <-]. apply Z.leb_nle in Hge.
    split; [done|]. split; [lia|]. split; [|split].
    + intros et Het Hne. rewrite Het. cbn [truthy_opt_str or_empty default].
      unfold truthy_str. rewrite (proj2 (String.eqb_neq _ _) Hne). cbn [negb].
      apply request_headers_stored. by rewrite lookup_insert_eq.
    + by intros ->.
    + intros url' Hne. destruct (truthy_opt_str (Response.etag r0)); [|done].
      by apply request_headers_other.
  - intros tags u. apply request_headers_no_cache.
Qed.

(** ** The excerpt for a budget that is not positive *)




(** ** Writing a log and reading it back *)

Lemma str_app_nil_r (s : string) : s +:+ "" = s.
Proof. induction s as [|c s IH]; [done|]. by rewrite str_app_cons, IH. Qed.

Lemma plain_char_spec (c : ascii) :
  plain_char c = true →
  (N_of_ascii c < 128)%N
  ∧ is_char "013" c = false ∧ is_line_break c = false
  ∧ is_char "194" c = false ∧ is_char "226" c = false.
Proof.
  destruct c as [[] [] [] [] [] [] [] []]; vm_compute; intros H;
    first [discriminate H | repeat split; (done || lia)].
Qed.

Lemma splitlines_from_plain (cur s rest : string) :
  forallb_str plain_char s = true →
  splitlines_from cur (s +:+ rest) = splitlines_from (cur +:+ s) rest.
Proof.
  revert cur. induction s as [|c s IH]; intros cur Hs.
  - by rewrite str_app_nil_r.
  - cbn [forallb_str] in Hs. apply andb_true_iff in Hs as [Hc Hs].
    destruct (plain_char_spec c Hc) as (_ & H13 & Hbr & H194 & H226).
    rewrite str_app_cons. cbn [splitlines_from]. rewrite H13, Hbr, H194, H226.
    rewrite (IH _ Hs). unfold snoc_str. by rewrite str_app_assoc.
Qed.

Lemma splitlines_from_newline (cur rest : string) :
  splitlines_from cur (newline +:+ rest) = cur :: splitlines_from "" rest.
Proof. done. Qed.

Lemma splitlines_join (lines : list string) :
  Forall (fun line => forallb_str plain_char line = true) lines →
  last lines ≠ Some "" →
  splitlines (join newline lines) = lines.
Proof.
  unfold splitlines. induction lines as [|x lines IH]; intros Hall Hlast; [done|].
  inversion Hall as [|? ? Hx Hrest]; subst.
  destruct lines as [|y lines].
  - cbn [join]. rewrite <- (str_app_nil_r x) at 1.
    rewrite splitlines_from_plain by done. cbn [splitlines_from append].
    destruct x; [by destruct Hlast|done].
  - change (join newline (x :: y :: lines))
      with (x +:+ newline +:+ join newline (y :: lines)).
    rewrite splitlines_from_plain by done.
    rewrite splitlines_from_newline. cbn [append]. f_equal. by apply IH.
Qed.

Lemma byte_of_ascii_to_N (c : ascii) : Byte.to_N (byte_of_ascii c) = N_of_ascii c.
Proof. destruct c as [[] [] [] [] [] [] [] []]; by vm_compute. Qed.

Lemma decode_utf8_replace_ascii (s : string) :
  forallb_str (fun c => (N_of_ascii c <? 128)%N) s = true →
  decode_utf8_replace (list_byte_of_string s) = s.
Proof.
  induction s as [|c s IH]; intros Hs; [done|].
  cbn [forallb_str] in Hs. apply andb_true_iff in Hs as [Hc Hs].
  apply N.ltb_lt in Hc.
  change (list_byte_of_string (String c s))
    with (byte_of_ascii c :: list_byte_of_string s).
  rewrite decode_ascii by (by rewrite byte_of_ascii_to_N).
  unfold chr. by rewrite ascii_of_byte_of_ascii, IH.
Qed.

Lemma forallb_str_impl (p q : ascii → bool) (s : string) :
  (∀ c : ascii, p c = true → q c = true) →
  forallb_str p s = true → forallb_str q s = true.
Proof.
  intros Hpq. induction s as [|c s IH]; [done|]. cbn [forallb_str].
  rewrite !andb_true_iff. intros [Hc Hs]. split; [by apply Hpq|by apply IH].
Qed.

Lemma forallb_str_join (p : ascii → bool) (sep : string) (lines : list string) :
  forallb_str p sep = true →
  Forall (fun line => forallb_str p line = true) lines →
  forallb_str p (join sep lines) = true.
Proof.
  intros Hsep. induction 1 as [|x lines Hx Hl IH]; [done|].
  destruct lines as [|y lines]; [done|].
  change (join sep (x :: y :: lines)) with (x +:+ sep +:+ join sep (y :: lines)).
  by rewrite !forallb_str_app, Hx, Hsep, IH.
Qed.

(** X13. Reading back what was written: for lines of ASCII text that hold no
    line boundary, the last of them not empty, the bytes of the lines joined
    by newlines decode and split into the same lines; and the extractor,
    given an archive whose located entry holds these bytes and a budget that
    the lines fit, returns the lines themselves when none of them matches. *)
Theorem log_lines_round_trip (lines : list string) :
  Forall (fun line => forallb_str plain_char line = true) lines →
  last lines ≠ Some "" →
  splitlines (decode_utf8_replace (list_byte_of_string (join newline lines))) = lines
  ∧ (∀ (z : ZipFile.t) (job name : string) (step : option string)
       (max_lines context_lines : Z),
       locate_log_file (ZipFile.namelist z) job step = Some name →
       ZipFile.read z name = Ok (list_byte_of_string (join newline lines)) →
       error_positions lines = [] →
       len lines ≤ max_lines → 1 ≤ max_lines →
       extract_failing_step_logs (Ok z) job step max_lines context_lines = Some lines).
Proof.
  intros Hall Hlast.
  assert (Hrt :
    splitlines (decode_utf8_replace (list_byte_of_string (join newline lines))) = lines).
  { rewrite decode_utf8_replace_ascii; [by apply splitlines_join|].
    apply forallb_str_join; [done|].
    eapply Forall_impl; [exact Hall|]. intros line.
    apply forallb_str_impl. intros c Hc.
    destruct (plain_char_spec c Hc) as [Hlt _]. by apply N.ltb_lt. }
  split; [exact Hrt|].
  intros z job name step max_lines context_lines Hl Hr He Hfit Hmax.
  unfold extract_failing_step_logs.
  rewrite (extract_located z job step name max_lines context_lines Hl).
  unfold mbind, result_bind. rewrite Hr, Hrt, excerpt_spec by done.
  cbn [fmap result_fmap catch]. unfold spec_excerpt. rewrite He.
  f_equal. apply last_n_all. unfold len in Hfit. lia.
Qed.

Lemma log_lines_round_trip_witness :
  splitlines
    (decode_utf8_replace
       (list_byte_of_string (join newline ["Run make"; ""; "compiling"; "done"])))
  = ["Run make"; ""; "compiling"; "done"].
Proof.
  apply (proj1 (log_lines_round_trip ["Run make"; ""; "compiling"; "done"]
                  ltac:(by repeat constructor) ltac:(done))).
Defined.
